(** * gen-board.h.py: MCU profile resolution, pin parsing, pin table, emission

    A shallow embedding of [gen-board.h.py], the generator that turns a YAML
    board description into a ChibiOS [board.h].

    Conventions of the embedding.
    - Python [str] values are [string]s over 7-bit ASCII; [upper], [lower],
      [strip] and [int] below follow Python on that range (bytes from 128 on
      are left alone by the case functions and are neither spaces nor
      digits).
    - Python [int] values are [Z]; list positions and lengths are [nat].
    - A run of the script either produces a value or stops: [sys.exit(1)]
      after a printed message and uncaught Python exceptions are the
      constructors of [error], and fallible functions return [result].
    - [dict]s whose iteration order is never observed ([Pins._pins],
      [Pins._pins_by_name]: the script only iterates them through
      [sorted]) are [gmap]s; the [pin] dictionaries with their fixed key
      set are records of options ([PinDict]).
    - [board.write] appends to the list of chunks written so far. *)

From Stdlib Require Import ZArith Ascii String.
From stdpp Require Import base decidable option list sorting gmap strings pretty.

Local Open Scope string_scope.
Local Open Scope list_scope.
Local Open Scope Z_scope.

(** ** Failure modes *)

(** One constructor per [print(...); sys.exit(1)] site of the script, named
    after the error they report, and one per Python exception the modelled
    code can raise. [UnknownKeyword] carries the two values formatted into
    its message, [IncompleteDefault] the dictionary key that is missing. *)
Inductive error : Type :=
  | NoMatchingProfile
  | UnknownKeyword (elm pin_data : string)
  | ConflictingMode
  | IncompleteDefault (key : string)
  | DefaultHasPosition
  | IndexError
  | ValueError
  | TypeError
  | KeyError.

Inductive result (A : Type) : Type :=
  | Ok (a : A)
  | Err (e : error).
Arguments Ok {A} a.
Arguments Err {A} e.

(** [result] is a monad; the notation [x ← c; k] runs [c] and stops at
    its error. *)
#[global] Instance result_ret : MRet result := λ A a, Ok a.
#[global] Instance result_bind : MBind result := λ A B k c,
  match c with
  | Ok a => k a
  | Err e => Err e
  end.

Definition is_ok {A} (r : result A) : bool :=
  match r with Ok _ => true | Err _ => false end.

Definition of_option {A} (e : error) (o : option A) : result A :=
  match o with Some a => Ok a | None => Err e end.

#[global] Instance error_eq_dec : EqDecision error.
Proof. solve_decision. Defined.

#[global] Instance result_eq_dec {A} `{EqDecision A} : EqDecision (result A).
Proof. solve_decision. Defined.

(** ** Python strings *)

Module Py.

Definition chars (s : string) : list ascii := list_ascii_of_string s.
Definition str (l : list ascii) : string := string_of_list_ascii l.

Definition code (c : ascii) : N := N_of_ascii c.

(** [s[i]] for [i >= 0]: a one-character string, or [IndexError]. *)
Definition getitem (s : string) (i : nat) : result string :=
  match String.get i s with
  | Some c => Ok (String c "")
  | None => Err IndexError
  end.

(** [s[n:]] and [s[:n]] for [n >= 0]. *)
Definition from (n : nat) (s : string) : string := str (drop n (chars s)).
Definition upto (n : nat) (s : string) : string := str (take n (chars s)).

(** [s[-n:]] and [s[:-n]] for [n > 0]. *)
Definition last_n (n : nat) (s : string) : string :=
  from (String.length s - n) s.
Definition but_last_n (n : nat) (s : string) : string :=
  upto (String.length s - n) s.

Definition upper_char (c : ascii) : ascii :=
  if ((97 <=? code c) && (code c <=? 122))%N
  then ascii_of_N (code c - 32) else c.
Definition lower_char (c : ascii) : ascii :=
  if ((65 <=? code c) && (code c <=? 90))%N
  then ascii_of_N (code c + 32) else c.

Definition upper (s : string) : string := str (upper_char <$> chars s).
Definition lower (s : string) : string := str (lower_char <$> chars s).

(** [str.isspace] on ASCII: TAB, LF, VT, FF, CR, FS, GS, RS, US, SPACE. *)
Definition isspace (c : ascii) : bool :=
  ((9 <=? code c) && (code c <=? 13)
   || (28 <=? code c) && (code c <=? 32))%N.

Fixpoint lstrip_chars (l : list ascii) : list ascii :=
  match l with
  | c :: l' => if isspace c then lstrip_chars l' else l
  | [] => []
  end.

Definition strip (s : string) : string :=
  str (reverse (lstrip_chars (reverse (lstrip_chars (chars s))))).

(** [s.split(sep)] for a one-character separator: the pieces between the
    separators, never an empty list. *)
Fixpoint split_chars (sep : ascii) (l : list ascii) : list (list ascii) :=
  match l with
  | [] => [[]]
  | c :: l' =>
      if decide (c = sep) then [] :: split_chars sep l'
      else match split_chars sep l' with
           | piece :: pieces => (c :: piece) :: pieces
           | [] => [[c]]
           end
  end.

Definition split (sep : ascii) (s : string) : list string :=
  str <$> split_chars sep (chars s).

(** [sep.join(pieces)]. *)
Fixpoint join (sep : string) (pieces : list string) : string :=
  match pieces with
  | [] => ""
  | [p] => p
  | p :: rest => p +:+ sep +:+ join sep rest
  end.

(** [" " * n]: the empty string when [n <= 0]. *)
Definition spaces (n : Z) : string := str (replicate (Z.to_nat n) " "%char).

(** ["{:<w}".format(s)]: pad with spaces on the right up to width [w]. *)
Definition ljust (w : nat) (s : string) : string :=
  s +:+ spaces (Z.of_nat w - Z.of_nat (String.length s)).

Definition digit (c : ascii) : option Z :=
  if ((48 <=? code c) && (code c <=? 57))%N
  then Some (Z.of_N (code c) - 48) else None.

(** The digits of a decimal literal, where single underscores may separate
    digits: [acc] is [None] before the first digit. [after_us] tells that
    the previous character was an underscore. *)
Fixpoint digits (l : list ascii) (acc : option Z) (after_us : bool)
  : option Z :=
  match l with
  | [] => if after_us then None else acc
  | c :: l' =>
      match digit c with
      | Some d => digits l' (Some (10 * default 0 acc + d)) false
      | None =>
          if decide (c = "_"%char) then
            match acc with
            | Some _ => if after_us then None else digits l' acc true
            | None => None
            end
          else None
      end
  end.

(** The white space that [int] skips around a number: TAB, LF, VT, FF, CR
    and SPACE. The separators FS, GS, RS and US, which [str.strip] removes,
    are no white space to [int]. *)
Definition int_space (c : ascii) : bool :=
  ((9 <=? code c) && (code c <=? 13) || (code c =? 32))%N.

Fixpoint int_lstrip (l : list ascii) : list ascii :=
  match l with
  | c :: l' => if int_space c then int_lstrip l' else l
  | [] => []
  end.

(** [int(s)]: surrounding white space, an optional sign, decimal digits. *)
Definition int (s : string) : result Z :=
  let body := reverse (int_lstrip (reverse (int_lstrip (chars s)))) in
  let '(sign, ds) :=
    match body with
    | "-"%char :: ds => (-1, ds)
    | "+"%char :: ds => (1, ds)
    | _ => (1, body)
    end in
  match digits ds None false with
  | Some v => Ok (sign * v)
  | None => Err ValueError
  end.

(** The line feed and the backslash of Python's string literals. *)
Definition nl : string := String "010" "".
Definition backslash : string := String "092" "".

(** [str(z)], as [format] renders an [int]. *)
Definition of_int (z : Z) : string := pretty z.

End Py.

(** ** The MCU resolver (class [MCU]) *)

Record MCU : Type := mkMCU {
  ports : list string;
  pins_per_port : nat
}.

(** The loop of [_match_names] over [zip(test, x)]; note that the second
    test compares the whole pattern [x] with ["x"]. *)
Fixpoint match_loop (x : string) (pairs : list (ascii * ascii)) (score : Z)
  : Z :=
  match pairs with
  | [] => score
  | (tc, xc) :: rest =>
      if decide (tc = xc) then match_loop x rest (score + 1)
      else if decide (x = "x") then match_loop x rest score
      else match_loop x rest (score - 1)
  end.

Definition _match_names (test x : string) : Z :=
  match_loop x (zip (Py.chars test) (Py.chars x)) 0.

(** The scoring as the specification words it: a pattern character that is
    the wildcard ['x'] is neutral. Used only to state the divergence. *)
Fixpoint spec_match_loop (pairs : list (ascii * ascii)) (score : Z) : Z :=
  match pairs with
  | [] => score
  | (tc, xc) :: rest =>
      if decide (tc = xc) then spec_match_loop rest (score + 1)
      else if decide (xc = "x"%char) then spec_match_loop rest score
      else spec_match_loop rest (score - 1)
  end.

Definition spec_match_names (test x : string) : Z :=
  spec_match_loop (zip (Py.chars test) (Py.chars x)) 0.

(** [sorted(l, key=key, reverse=True)]: Python's sort is stable, also with
    [reverse=True], so elements with equal keys keep their order. *)
Section SortedReverse.
Context {A : Type} (key : A → Z).

Fixpoint insert_desc (a : A) (l : list A) : list A :=
  match l with
  | [] => [a]
  | b :: l' => if key a <? key b then b :: insert_desc a l' else a :: l
  end.

Definition sorted_reverse (l : list A) : list A := foldr insert_desc [] l.
End SortedReverse.

(** The directory [mcu/] next to the script: file names with the profile
    each file holds. *)
Definition mcu_dir : Type := list (string * MCU).

Definition _mcu_types (dir : mcu_dir) : list string :=
  Py.but_last_n 5 <$> filter (λ name, Py.last_n 5 name = ".yaml") (dir.*1).

(** [_choose_mcu_file], over the list [types] that [_mcu_types] returns;
    the result is the file name inside [mcu/]. *)
Definition _choose_mcu_file (types : list string) (mcutype : string)
  : result string :=
  let rank_types := sorted_reverse (λ x, _match_names mcutype x) types in
  choice ← of_option IndexError (rank_types !! 0%nat);
  let score := _match_names mcutype choice in
  if score <=? 0 then Err NoMatchingProfile
  else Ok (choice +:+ ".yaml").

(** [MCU.__init__]: open the chosen file and read the profile. *)
Definition MCU_init (dir : mcu_dir) (mcutype : string) : result MCU :=
  mcu_filename ← _choose_mcu_file (_mcu_types dir) mcutype;
  of_option KeyError
    (snd <$> head (filter (λ f : string * MCU, f.1 = mcu_filename) dir)).

(** ** Pin dictionaries and pin records (class [Pins]) *)

(** The dictionaries [pin], [data] and [default] of the parser: each key of
    the script is a field, [None] when the key is absent. *)
Record PinDict : Type := mkPinDict {
  d_name : option string;
  d_port : option string;
  d_num : option Z;
  d_mode : option string;
  d_od : option string;
  d_otype : option string;
  d_ospeed : option string;
  d_pupd : option string;
  d_af : option Z;
  d_raw : option string
}.

(** [{}] *)
Definition empty_dict : PinDict :=
  mkPinDict None None None None None None None None None None.

(** [pin[key] = v], one definition per key that the script assigns. *)
Definition set_name (v : string) (d : PinDict) : PinDict :=
  mkPinDict (Some v) (d_port d) (d_num d) (d_mode d) (d_od d) (d_otype d)
            (d_ospeed d) (d_pupd d) (d_af d) (d_raw d).
Definition set_port (v : string) (d : PinDict) : PinDict :=
  mkPinDict (d_name d) (Some v) (d_num d) (d_mode d) (d_od d) (d_otype d)
            (d_ospeed d) (d_pupd d) (d_af d) (d_raw d).
Definition set_num (v : Z) (d : PinDict) : PinDict :=
  mkPinDict (d_name d) (d_port d) (Some v) (d_mode d) (d_od d) (d_otype d)
            (d_ospeed d) (d_pupd d) (d_af d) (d_raw d).
Definition set_mode (v : string) (d : PinDict) : PinDict :=
  mkPinDict (d_name d) (d_port d) (d_num d) (Some v) (d_od d) (d_otype d)
            (d_ospeed d) (d_pupd d) (d_af d) (d_raw d).
Definition set_od (v : string) (d : PinDict) : PinDict :=
  mkPinDict (d_name d) (d_port d) (d_num d) (d_mode d) (Some v) (d_otype d)
            (d_ospeed d) (d_pupd d) (d_af d) (d_raw d).
Definition set_otype (v : string) (d : PinDict) : PinDict :=
  mkPinDict (d_name d) (d_port d) (d_num d) (d_mode d) (d_od d) (Some v)
            (d_ospeed d) (d_pupd d) (d_af d) (d_raw d).
Definition set_ospeed (v : string) (d : PinDict) : PinDict :=
  mkPinDict (d_name d) (d_port d) (d_num d) (d_mode d) (d_od d) (d_otype d)
            (Some v) (d_pupd d) (d_af d) (d_raw d).
Definition set_pupd (v : string) (d : PinDict) : PinDict :=
  mkPinDict (d_name d) (d_port d) (d_num d) (d_mode d) (d_od d) (d_otype d)
            (d_ospeed d) (Some v) (d_af d) (d_raw d).
Definition set_af (v : Z) (d : PinDict) : PinDict :=
  mkPinDict (d_name d) (d_port d) (d_num d) (d_mode d) (d_od d) (d_otype d)
            (d_ospeed d) (d_pupd d) (Some v) (d_raw d).
Definition set_raw (v : string) (d : PinDict) : PinDict :=
  mkPinDict (d_name d) (d_port d) (d_num d) (d_mode d) (d_od d) (d_otype d)
            (d_ospeed d) (d_pupd d) (d_af d) (Some v).

(** One key of [pin.update(other)]: the value of [other] when it has the
    key, the old value otherwise. *)
Definition upd {A} (old new : option A) : option A :=
  match new with
  | Some _ => new
  | None => old
  end.

(** [pin.update(other)] *)
Definition update (pin other : PinDict) : PinDict :=
  mkPinDict (upd (d_name pin) (d_name other)) (upd (d_port pin) (d_port other))
            (upd (d_num pin) (d_num other)) (upd (d_mode pin) (d_mode other))
            (upd (d_od pin) (d_od other)) (upd (d_otype pin) (d_otype other))
            (upd (d_ospeed pin) (d_ospeed other))
            (upd (d_pupd pin) (d_pupd other)) (upd (d_af pin) (d_af other))
            (upd (d_raw pin) (d_raw other)).

(** The named tuple [Pins._Pin]. *)
Record Pin : Type := mkPin {
  name : string;
  port : string;
  num : Z;
  mode : string;
  od : string;
  otype : string;
  ospeed : string;
  pupd : string;
  af : Z;
  raw : string
}.

#[global] Instance Pin_eq_dec : EqDecision Pin.
Proof. solve_decision. Defined.

(** [self._Pin] called with the entries of [pin] as keyword arguments:
    every field of the tuple must be a key of [pin] ([TypeError] for a
    missing argument); [pin] has no other keys. *)
Definition _Pin (pin : PinDict) : result Pin :=
  match d_name pin, d_port pin, d_num pin, d_mode pin, d_od pin,
        d_otype pin, d_ospeed pin, d_pupd pin, d_af pin, d_raw pin with
  | Some n, Some p, Some i, Some m, Some o, Some ot, Some os, Some pu,
    Some a, Some r => Ok (mkPin n p i m o ot os pu a r)
  | _, _, _, _, _, _, _, _, _, _ => Err TypeError
  end.

(** [self._Pin(name=n, port=p, num=i, raw=r, **default)]: a key of
    [default] that repeats a keyword is a [TypeError] as well. *)
Definition _Pin_with (n p : string) (i : Z) (r : string) (default : PinDict)
  : result Pin :=
  match d_name default, d_port default, d_num default, d_raw default with
  | None, None, None, None =>
      _Pin (set_raw r (set_num i (set_port p (set_name n default))))
  | _, _, _, _ => Err TypeError
  end.

(** *** [Pins._parse_data_str] *)

(** The first test of the loop body:
    [elm[0] == "P" and elm[1] in self.mcu.ports
     and int(elm[2:]) < self.mcu.pins_per_port]. *)
Definition position_guard (mcu : MCU) (elm : string) : result bool :=
  c0 ← Py.getitem elm 0;
  if decide (c0 = "P") then
    c1 ← Py.getitem elm 1;
    if decide (c1 ∈ ports mcu) then
      n ← Py.int (Py.from 2 elm);
      Ok (bool_decide (n < Z.of_nat (pins_per_port mcu)))
    else Ok false
  else Ok false.

(** [elm.strip().upper()] *)
Definition normalize (piece : string) : string := Py.upper (Py.strip piece).

(** One iteration of the loop, on the state [(pin, raw)]. *)
Definition parse_elm (mcu : MCU) (pin_data : string)
    (st : PinDict * list string) (piece : string)
  : result (PinDict * list string) :=
  let '(pin, raw) := st in
  let elm := normalize piece in
  is_position ← position_guard mcu elm;
  if is_position : bool then
    p ← Py.getitem elm 1;
    i ← Py.int (Py.from 2 elm);
    Ok (set_num i (set_port p pin), raw)
  else if decide (elm ∈ ["INPUT"; "OUTPUT"; "ANALOG"]) then
    if d_mode pin is Some _ then Err ConflictingMode
    else Ok (set_af 0 (set_mode elm pin), raw ++ [elm])
  else if decide (elm ∈ ["STARTLOW"; "STARTHIGH"]) then
    Ok (set_od (Py.from 5 elm) pin, raw ++ [elm])
  else if decide (elm ∈ ["PUSHPULL"; "OPENDRAIN"]) then
    Ok (set_otype elm pin, raw ++ [elm])
  else if decide (elm ∈ ["VERYLOWSPEED"; "LOWSPEED"; "MEDIUMSPEED";
                         "HIGHSPEED"]) then
    Ok (set_ospeed (Py.but_last_n 5 elm) pin, raw ++ [elm])
  else if decide (elm ∈ ["FLOATING"; "PULLUP"; "PULLDOWN"]) then
    Ok (set_pupd elm pin, raw ++ [elm])
  else if decide (Py.upto 2 elm = "AF") then
    if d_mode pin is Some _ then Err ConflictingMode
    else
      a ← Py.int (Py.from 2 elm);
      Ok (set_af a (set_mode "ALTERNATE" pin), raw ++ [elm])
  else Err (UnknownKeyword elm pin_data).

Fixpoint parse_loop (mcu : MCU) (pin_data : string) (pieces : list string)
    (st : PinDict * list string) : result (PinDict * list string) :=
  match pieces with
  | [] => Ok st
  | piece :: rest =>
      st' ← parse_elm mcu pin_data st piece;
      parse_loop mcu pin_data rest st'
  end.

(** [Pins._default_check_data] *)
Definition _default_check_data (pin : PinDict) : result unit :=
  if d_mode pin is None then Err (IncompleteDefault "mode")
  else if d_od pin is None then Err (IncompleteDefault "od")
  else if d_otype pin is None then Err (IncompleteDefault "otype")
  else if d_ospeed pin is None then Err (IncompleteDefault "ospeed")
  else if d_pupd pin is None then Err (IncompleteDefault "pupd")
  else if d_port pin is Some _ then Err DefaultHasPosition
  else Ok ().

Definition _parse_data_str (mcu : MCU) (pin_data : string) (default : bool)
  : result (PinDict * list string) :=
  '(pin, raw) ← parse_loop mcu pin_data (Py.split "," pin_data)
                            (empty_dict, []);
  _ ← (if default then _default_check_data pin else Ok ());
  Ok (pin, raw).

(** *** [Pins._parse_pin_data] *)
Definition _parse_pin_data (mcu : MCU) (name : string) (pin_data : string)
    (default : PinDict) : result Pin :=
  let pin := set_name (Py.upper name) empty_dict in
  let pin := update pin default in
  '(data, raw) ← _parse_data_str mcu pin_data false;
  let pin := update pin data in
  let pin := set_raw (Py.lower (Py.join ", " raw)) pin in
  _Pin pin.

(** *** [Pins.__init__] *)

Record Pins : Type := mkPins {
  mcu : MCU;
  _pins : gmap string (list Pin);
  _pins_by_name : gmap string Pin
}.

(** The board description read from YAML, as far as [Pins] uses it; [pins]
    is listed in the order in which [items()] yields it. *)
Record board_def : Type := mkBoard {
  bd_mcutype : string;
  bd_default : string;
  bd_pins : list (string * string)
}.

(** The record that the comprehension builds for position [n] of port [p]:
    [_Pin(name="PIN{}".format(n), port=port, num=n, raw="unused",
    **default)]. *)
Definition placeholder (default : PinDict) (p : string) (n : nat)
  : result Pin :=
  _Pin_with ("PIN" +:+ Py.of_int (Z.of_nat n)) p (Z.of_nat n) "unused" default.

(** The list comprehension of one port, over [range(pins_per_port)]. *)
Fixpoint default_row (p : string) (default : PinDict) (ns : list nat)
  : result (list Pin) :=
  match ns with
  | [] => Ok []
  | n :: ns' =>
      pin ← placeholder default p n;
      row ← default_row p default ns';
      Ok (pin :: row)
  end.

(** The dictionary comprehension over [self.mcu.ports]. *)
Fixpoint default_table (mcu : MCU) (default : PinDict) (ps : list string)
    (tbl : gmap string (list Pin)) : result (gmap string (list Pin)) :=
  match ps with
  | [] => Ok tbl
  | p :: ps' =>
      row ← default_row p default (seq 0 (pins_per_port mcu));
      default_table mcu default ps' (<[p := row]> tbl)
  end.

(** [l[i] = v] on a Python list: a negative [i] counts from the end, and
    an [i] outside [-len(l) .. len(l)-1] raises [IndexError]. *)
Definition list_setitem {A} (l : list A) (i : Z) (v : A) : result (list A) :=
  let n := Z.of_nat (length l) in
  if bool_decide (0 ≤ i < n) then Ok (<[Z.to_nat i := v]> l)
  else if bool_decide (- n ≤ i < 0) then Ok (<[Z.to_nat (n + i) := v]> l)
  else Err IndexError.

(** One iteration of the loop over [board_def['pins'].items()]. *)
Definition declare_pin (mcu : MCU) (default : PinDict)
    (st : gmap string (list Pin) * gmap string Pin) (decl : string * string)
  : result (gmap string (list Pin) * gmap string Pin) :=
  let '(tbl, by_name) := st in
  pin ← _parse_pin_data mcu decl.1 decl.2 default;
  row ← of_option KeyError (tbl !! port pin);
  row' ← list_setitem row (num pin) pin;
  Ok (<[port pin := row']> tbl, <[name pin := pin]> by_name).

Fixpoint declare_pins (mcu : MCU) (default : PinDict)
    (decls : list (string * string))
    (st : gmap string (list Pin) * gmap string Pin)
  : result (gmap string (list Pin) * gmap string Pin) :=
  match decls with
  | [] => Ok st
  | decl :: rest =>
      st' ← declare_pin mcu default st decl;
      declare_pins mcu default rest st'
  end.

Definition Pins_init (dir : mcu_dir) (bd : board_def) : result Pins :=
  mcu ← MCU_init dir (bd_mcutype bd);
  '(default, _) ← _parse_data_str mcu (bd_default bd) true;
  tbl ← default_table mcu default (ports mcu) ∅;
  '(tbl, by_name) ← declare_pins mcu default (bd_pins bd) (tbl, ∅);
  Ok (mkPins mcu tbl by_name).

(** [l[i]] on a Python list, with the same reading of [i] as
    [list_setitem]. *)
Definition list_getitem {A} (l : list A) (i : Z) : result A :=
  let n := Z.of_nat (length l) in
  if bool_decide (0 ≤ i < n) then of_option IndexError (l !! Z.to_nat i)
  else if bool_decide (- n ≤ i < 0)
       then of_option IndexError (l !! Z.to_nat (n + i))
  else Err IndexError.

(** [pin_by_name], [pin_by_port], [iter_names], [iter_ports], [iter_port] *)
Definition pin_by_name (pins : Pins) (n : string) : result Pin :=
  of_option KeyError (_pins_by_name pins !! n).

Definition pin_by_port (pins : Pins) (p : string) (i : Z) : result Pin :=
  row ← of_option KeyError (_pins pins !! Py.upper p);
  list_getitem row i.


(** [sorted(names)]: names are distinct, so the result does not depend on
    the sorting algorithm. *)
Definition sorted (l : list string) : list string := merge_sort String.le l.

Definition iter_ports (pins : Pins) : list string :=
  sorted (elements (dom (_pins pins))).

Definition iter_port (pins : Pins) (p : string) : result (list Pin) :=
  of_option KeyError (_pins pins !! Py.upper p).

(** ** The header emitter *)

(** [for x in xs: ... f(x) ...] where [f] may raise. *)
Fixpoint for_each {A B} (f : A → result B) (xs : list A) : result (list B) :=
  match xs with
  | [] => Ok []
  | x :: xs' =>
      y ← f x;
      ys ← for_each f xs';
      Ok (y :: ys)
  end.

(** *** [write_io_lines] *)


(** The [LINE_] macro written for one pin. *)
Definition line_macro (pin : Pin) : string :=
  "#define LINE_" +:+ name pin
  +:+ Py.spaces (39 - 13 - Z.of_nat (String.length (name pin)))
  +:+ "PAL_LINE(GPIO" +:+ port pin +:+ ", " +:+ Py.of_int (num pin) +:+ "U)"
  +:+ Py.nl.


(** *** [write_io_ports] *)

Definition port_comment (p : string) : string :=
  "/*" +:+ Py.nl +:+ " *  GPIO" +:+ p +:+ " setup:" +:+ Py.nl +:+ " *"
  +:+ Py.nl.

Definition pin_comment (pin : Pin) : string :=
  " * P" +:+ port pin +:+ Py.ljust 3 (Py.of_int (num pin)) +:+ "- "
  +:+ Py.ljust 29 (name pin) +:+ "(" +:+ raw pin +:+ ")." +:+ Py.nl.

(** The separator between the terms of a register expression. *)
Definition term_sep : string :=
  " | " +:+ Py.backslash +:+ Py.nl +:+ Py.spaces 40.

(** [pin._asdict()[mode.lower()]] for the five register names. *)
Definition register_field (reg : string) (pin : Pin) : result string :=
  if decide (reg = "MODE") then Ok (mode pin)
  else if decide (reg = "OTYPE") then Ok (otype pin)
  else if decide (reg = "OSPEED") then Ok (ospeed pin)
  else if decide (reg = "PUPD") then Ok (pupd pin)
  else if decide (reg = "OD") then Ok (od pin)
  else Err KeyError.

Definition register_term (reg : string) (pin : Pin) : result string :=
  data ← register_field reg pin;
  Ok ("PIN_" +:+ reg +:+ "_" +:+ data +:+ "(GPIO" +:+ port pin +:+ "_"
      +:+ name pin +:+ ")").

Definition register_macro (p reg : string) (row : list Pin) : result string :=
  terms ← for_each (register_term reg) row;
  Ok (Py.ljust 39 ("#define VAL_GPIO" +:+ p +:+ "_" +:+ reg +:+ "R") +:+ "("
      +:+ Py.join term_sep terms +:+ ")" +:+ Py.nl).

(** One [PIN_AFIO_AF] term; the port is the loop variable of the caller. *)
Definition af_term (p : string) (pin : Pin) : string :=
  "PIN_AFIO_AF(GPIO" +:+ p +:+ "_" +:+ name pin +:+ ", "
  +:+ Py.of_int (af pin) +:+ "U)".

Definition afr_macro (half p : string) (terms : list string) : string :=
  "#define VAL_GPIO" +:+ p +:+ "_AFR" +:+ half +:+ Py.spaces 17 +:+ "("
  +:+ Py.join term_sep terms +:+ ")" +:+ Py.nl.

Definition afrl (p : string) (row : list Pin) : string :=
  afr_macro "L" p (af_term p <$> filter (λ pin, num pin < 8) row).

Definition afrh (p : string) (row : list Pin) : string :=
  afr_macro "H" p (af_term p <$> filter (λ pin, num pin >= 8) row).

(** The chunks written for one port. *)
Definition write_io_port (pins : Pins) (p : string) : result (list string) :=
  row ← iter_port pins p;
  regs ← for_each (λ reg, register_macro p reg row)
                   ["MODE"; "OTYPE"; "OSPEED"; "PUPD"; "OD"];
  Ok ([port_comment p] ++ (pin_comment <$> row) ++ ["*/" +:+ Py.nl] ++ regs
      ++ [afrl p row; afrh p row; Py.nl]).

Definition write_io_ports (pins : Pins) : result (list string) :=
  chunks ← for_each (write_io_port pins) (iter_ports pins);
  Ok (concat chunks).


(** *** [write_io_pins] *)

Definition io_pins_comment : string :=
  "/*" +:+ Py.nl +:+ "    IO pins assignments." +:+ Py.nl +:+ "*/"
  +:+ Py.nl +:+ Py.nl.

(** The [GPIO<port>_<name>] macro written for one pin; the padding is
    meant to start the pin number at column 40. *)
Definition pin_define (pin : Pin) : string :=
  "#define GPIO" +:+ port pin +:+ "_" +:+ name pin
  +:+ Py.spaces (39 - 14 - Z.of_nat (String.length (name pin)))
  +:+ Py.of_int (num pin) +:+ "U" +:+ Py.nl.

(** The chunks written for one port: a macro per pin, then a blank line. *)
Definition write_io_pins_port (pins : Pins) (p : string)
  : result (list string) :=
  row ← iter_port pins p;
  Ok ((pin_define <$> row) ++ [Py.nl]).

Definition write_io_pins (pins : Pins) : result (list string) :=
  chunks ← for_each (write_io_pins_port pins) (iter_ports pins);
  Ok ([io_pins_comment] ++ concat chunks).

(** The helper macros that the fixed text [IO_PORT_SETUP] defines for the
    five attribute registers. *)
Definition helper_macros : list string :=
  ["PIN_MODE_INPUT"; "PIN_MODE_OUTPUT"; "PIN_MODE_ALTERNATE";
   "PIN_MODE_ANALOG"; "PIN_OD_LOW"; "PIN_OD_HIGH"; "PIN_OTYPE_PUSHPULL";
   "PIN_OTYPE_OPENDRAIN"; "PIN_OSPEED_VERYLOW"; "PIN_OSPEED_LOW";
   "PIN_OSPEED_MEDIUM"; "PIN_OSPEED_HIGH"; "PIN_PUPD_FLOATING";
   "PIN_PUPD_PULLUP"; "PIN_PUPD_PULLDOWN"].
(** ** Vocabulary of the statements *)

(** The score of a catalog pattern for a request. *)
Definition score (mcutype x : string) : Z := _match_names mcutype x.

(** [choice] is the first pattern of [types] with the highest score. *)
Definition first_best (mcutype : string) (types : list string)
    (choice : string) : Prop :=
  ∃ pre post,
    types = pre ++ choice :: post ∧
    (∀ y, y ∈ pre → score mcutype y < score mcutype choice) ∧
    (∀ y, y ∈ post → score mcutype y ≤ score mcutype choice).

(** The keyword families of the attribute strings, on normalized tokens.
    A position token is one that the guard of the loop accepts. *)
Definition mode_keyword (elm : string) : Prop :=
  elm ∈ ["INPUT"; "OUTPUT"; "ANALOG"].

Definition af_keyword (elm : string) : Prop :=
  Py.upto 2 elm = "AF" ∧ is_ok (Py.int (Py.from 2 elm)) = true.

Definition plain_keywords : list string :=
  ["INPUT"; "OUTPUT"; "ANALOG"; "STARTLOW"; "STARTHIGH"; "PUSHPULL";
   "OPENDRAIN"; "VERYLOWSPEED"; "LOWSPEED"; "MEDIUMSPEED"; "HIGHSPEED";
   "FLOATING"; "PULLUP"; "PULLDOWN"].

(** [elm] belongs to one of the seven families. *)
Definition keyword (mcu : MCU) (elm : string) : bool :=
  match position_guard mcu elm with
  | Ok true => true
  | Ok false =>
      bool_decide (elm ∈ plain_keywords)
      || bool_decide (Py.upto 2 elm = "AF") && is_ok (Py.int (Py.from 2 elm))
  | Err _ => false
  end.

(** The pieces of an attribute string between the commas, normalized. *)
Definition tokens (pin_data : string) : list string :=
  normalize <$> Py.split "," pin_data.

(** A profile and a catalog used for the concrete evaluations. *)
Definition stm32f4 : MCU := mkMCU ["A"; "B"] 16.
Definition catalog : mcu_dir := [("STM32F4xx.yaml", stm32f4)].
Definition board_default : string :=
  "OUTPUT, STARTLOW, PUSHPULL, HIGHSPEED, FLOATING".

(** What one accepted token does to the dictionary; the boolean tells
    whether the token is appended to [raw]. *)
Inductive accepted (mcu : MCU) (pin : PinDict) (elm : string)
  : PinDict → bool → Prop :=
  | acc_position p i :
      position_guard mcu elm = Ok true →
      Py.getitem elm 1 = Ok p →
      Py.int (Py.from 2 elm) = Ok i →
      accepted mcu pin elm (set_num i (set_port p pin)) false
  | acc_mode :
      position_guard mcu elm = Ok false →
      elm ∈ ["INPUT"; "OUTPUT"; "ANALOG"] →
      d_mode pin = None →
      accepted mcu pin elm (set_af 0 (set_mode elm pin)) true
  | acc_od :
      position_guard mcu elm = Ok false →
      elm ∈ ["STARTLOW"; "STARTHIGH"] →
      accepted mcu pin elm (set_od (Py.from 5 elm) pin) true
  | acc_otype :
      position_guard mcu elm = Ok false →
      elm ∈ ["PUSHPULL"; "OPENDRAIN"] →
      accepted mcu pin elm (set_otype elm pin) true
  | acc_ospeed :
      position_guard mcu elm = Ok false →
      elm ∈ ["VERYLOWSPEED"; "LOWSPEED"; "MEDIUMSPEED"; "HIGHSPEED"] →
      accepted mcu pin elm (set_ospeed (Py.but_last_n 5 elm) pin) true
  | acc_pupd :
      position_guard mcu elm = Ok false →
      elm ∈ ["FLOATING"; "PULLUP"; "PULLDOWN"] →
      accepted mcu pin elm (set_pupd elm pin) true
  | acc_af a :
      position_guard mcu elm = Ok false →
      elm ∉ plain_keywords →
      Py.upto 2 elm = "AF" →
      d_mode pin = None →
      Py.int (Py.from 2 elm) = Ok a →
      accepted mcu pin elm (set_af a (set_mode "ALTERNATE" pin)) true.


(** The list position that the Python index [i] denotes in a list of
    length [len]: negative indices count from the end. *)
Definition index_of (len : nat) (i : Z) : nat :=
  Z.to_nat (if bool_decide (0 ≤ i) then i else Z.of_nat len + i).

(** The record at position [i] of port [p] in a table. *)
Definition cell (tbl : gmap string (list Pin)) (p : string) (i : nat)
  : option Pin :=
  row ← tbl !! p; row !! i.

(** The number of records of a table. *)
Definition table_size (tbl : gmap string (list Pin)) : nat :=
  sum_list (length <$> (map_to_list tbl).*2).

(** The board default, the record of a declaration and the record of an
    unnamed position, as [Pins.__init__] computes them for a profile. *)
Definition default_of (m : MCU) (bd : board_def) : result PinDict :=
  '(d, _) ← _parse_data_str m (bd_default bd) true; Ok d.

Definition declared (m : MCU) (bd : board_def) (decl : string * string)
  : result Pin :=
  d ← default_of m bd; _parse_pin_data m decl.1 decl.2 d.

Definition unnamed (m : MCU) (bd : board_def) (p : string) (i : nat)
  : result Pin :=
  d ← default_of m bd; placeholder d p i.

(** A declaration targets position [i] of port [p]. *)
Definition targets (m : MCU) (default : PinDict) (p : string) (i : nat)
    (decl : string * string) : bool :=
  match _parse_pin_data m decl.1 decl.2 default with
  | Ok pin =>
      bool_decide (port pin = p ∧ index_of (pins_per_port m) (num pin) = i)
  | Err _ => false
  end.

(** The attribute values of the data model. *)
Definition modes : list string := ["INPUT"; "OUTPUT"; "ANALOG"; "ALTERNATE"].
Definition levels : list string := ["LOW"; "HIGH"].
Definition otypes : list string := ["PUSHPULL"; "OPENDRAIN"].
Definition speeds : list string := ["VERYLOW"; "LOW"; "MEDIUM"; "HIGH"].
Definition pulls : list string := ["FLOATING"; "PULLUP"; "PULLDOWN"].

(** Every attribute of a record holds a value of its family, and the
    alternate function is zero unless the mode is [ALTERNATE]. *)
Definition valid_attrs (pin : Pin) : Prop :=
  mode pin ∈ modes ∧ od pin ∈ levels ∧ otype pin ∈ otypes ∧
  ospeed pin ∈ speeds ∧ pupd pin ∈ pulls ∧
  (mode pin ≠ "ALTERNATE" → af pin = 0).

(** The same for the keys that a dictionary has; [mode] and [af] come
    together, [port] and [num] too, and the parser sets neither [name] nor
    [raw]. *)
Definition valid_dict (d : PinDict) : Prop :=
  (∀ m, d_mode d = Some m →
        m ∈ modes ∧ ∃ a, d_af d = Some a ∧ (m ≠ "ALTERNATE" → a = 0)) ∧
  (d_mode d = None → d_af d = None) ∧
  (∀ v, d_od d = Some v → v ∈ levels) ∧
  (∀ v, d_otype d = Some v → v ∈ otypes) ∧
  (∀ v, d_ospeed d = Some v → v ∈ speeds) ∧
  (∀ v, d_pupd d = Some v → v ∈ pulls) ∧
  (d_port d = None ↔ d_num d = None) ∧
  d_name d = None ∧ d_raw d = None.

(** Every row of a table has [n] records. *)
Definition rows_of_length (n : nat) (tbl : gmap string (list Pin)) : Prop :=
  ∀ p row, tbl !! p = Some row → length row = n.

(** A board used for the concrete evaluations: [LED2] is declared after
    [LED1] on the same position. *)
Definition board : board_def :=
  mkBoard "STM32F405" board_default
          [("led1", "PB5, STARTHIGH, LOWSPEED"); ("btn", "PA0, INPUT, PULLUP");
           ("led2", "PB5, AF7")].

(** A board whose only declaration has the position token [PA-1]. *)
Definition negative_board : board_def :=
  mkBoard "STM32F405" board_default [("last", "PA-1, AF5")].

(** A directory whose profile spells its port in lower case. *)
Definition lower_catalog : mcu_dir := [("STM32F4xx.yaml", mkMCU ["a"] 16)].

(** A board that declares no pin. *)
Definition board_without_pins : board_def :=
  mkBoard "STM32F405" board_default [].

(** The table that [Pins.__init__] builds for [board]. *)
Definition built : Pins :=
  match Pins_init catalog board with
  | Ok pins => pins
  | Err _ => mkPins stm32f4 ∅ ∅
  end.
(** ** The resolver *)

Section SortedReverseFacts.
Context {A : Type} (key : A → Z).
Implicit Types (a : A) (l : list A).

Lemma insert_desc_perm a l : insert_desc key a l ≡ₚ a :: l.
Proof.
  induction l as [|b l IH]; simpl; [done|].
  destruct (key a <? key b); [|done].
  rewrite IH. apply Permutation_swap.
Qed.

Lemma sorted_reverse_perm l : sorted_reverse key l ≡ₚ l.
Proof.
  induction l as [|a l IH]; simpl; [done|].
  by rewrite insert_desc_perm, IH.
Qed.

Lemma insert_desc_sorted a l :
  StronglySorted (λ x y, key y ≤ key x) l →
  StronglySorted (λ x y, key y ≤ key x) (insert_desc key a l).
Proof.
  induction 1 as [|b l Hl IH Hb]; simpl.
  - repeat constructor.
  - destruct (Z.ltb_spec (key a) (key b)) as [Hlt|Hge].
    + constructor; [done|].
      rewrite insert_desc_perm. constructor; [lia|done].
    + constructor; [by constructor|].
      constructor; [done|].
      eapply Forall_impl; [exact Hb|]. simpl. intros; lia.
Qed.

Lemma sorted_reverse_sorted l :
  StronglySorted (λ x y, key y ≤ key x) (sorted_reverse key l).
Proof.
  induction l; simpl; [constructor|]. by apply insert_desc_sorted.
Qed.

(** Stability: elements with the same key keep their order. *)
Lemma insert_desc_stable k a l :
  filter (λ y, key y = k) (insert_desc key a l)
  = filter (λ y, key y = k) (a :: l).
Proof.
  induction l as [|b l IH]; simpl; [done|].
  destruct (Z.ltb_spec (key a) (key b)) as [Hlt|Hge]; [|done].
  rewrite filter_cons, IH, !filter_cons.
  repeat case_decide; try done; lia.
Qed.

Lemma sorted_reverse_stable k l :
  filter (λ y, key y = k) (sorted_reverse key l)
  = filter (λ y, key y = k) l.
Proof.
  induction l as [|a l IH]; simpl; [done|].
  by rewrite insert_desc_stable, !filter_cons, IH.
Qed.

(** The first element of the result is the first element of the input
    among those with the greatest key. *)
Lemma sorted_reverse_head l c :
  head (sorted_reverse key l) = Some c →
  ∃ pre post,
    l = pre ++ c :: post ∧
    (∀ y, y ∈ pre → key y < key c) ∧ (∀ y, y ∈ post → key y ≤ key c).
Proof.
  revert c. induction l as [|a l IH]; intros c; simpl; [done|].
  destruct (sorted_reverse key l) as [|b s] eqn:Hs; simpl.
  - intros [= <-]. exists [], l. split; [done|].
    assert (l = []) as ->
      by (apply Permutation_nil_r; by rewrite <-Hs, sorted_reverse_perm).
    split; intros y Hy; by apply elem_of_nil in Hy.
  - destruct (IH b eq_refl) as (pre & post & -> & Hpre & Hpost).
    destruct (Z.ltb_spec (key a) (key b)) as [Hlt|Hge]; simpl.
    + intros [= <-]. exists (a :: pre), post. split; [done|].
      split; [|done].
      intros y [->|Hy]%elem_of_cons; [done|by apply Hpre].
    + intros [= <-]. exists [], (pre ++ b :: post). split; [done|].
      split; [intros y Hy; by apply elem_of_nil in Hy|].
      intros y [Hy|[->|Hy]%elem_of_cons]%elem_of_app.
      * specialize (Hpre y Hy). lia.
      * done.
      * specialize (Hpost y Hy). lia.
Qed.

Lemma sorted_reverse_nil l : sorted_reverse key l = [] → l = [].
Proof.
  intros H. apply Permutation_nil_r. by rewrite <-H, sorted_reverse_perm.
Qed.
End SortedReverseFacts.

(** When the pattern is not the one-character string ["x"], the loop adds
    one for each equal pair and subtracts one for every other pair. *)
Lemma match_loop_plain x pairs s :
  x ≠ "x" →
  match_loop x pairs s
  = s + foldr (λ p acc, (if decide (p.1 = p.2) then 1 else -1) + acc) 0 pairs.
Proof.
  intros Hx. revert s. induction pairs as [|[tc xc] pairs IH]; intros s; simpl.
  - lia.
  - destruct (decide (tc = xc)); [rewrite IH; lia|].
    destruct (decide (x = "x")); [done|]. rewrite IH. lia.
Qed.

(** C1. The request [STM32F405] against the pattern [STM32F4xx]: the seven
    leading characters match, and each of the two wildcard positions costs
    one point in the code (score 5), where the specified scoring skips them
    (score 7). A pattern character ['x'] is an ordinary mismatch unless the
    whole pattern is the string ["x"]. *)
Theorem match_names_wildcard_counts_as_mismatch :
  _match_names "STM32F405" "STM32F4xx" = 5 ∧
  spec_match_names "STM32F405" "STM32F4xx" = 7 ∧
  _match_names "0" "x" = 0 ∧
  _match_names "0" "xx" = -1.
Proof. by vm_compute. Qed.

(** C2. The resolver ranks the patterns by the score of [_match_names],
    not by the specified score. For the request [STM32F405] the pattern
    [STM32Fxxx] has the specified score 6 and [STM32F1] the score 5, yet
    the resolver returns the file of [STM32F1]; against the one pattern
    [Sxxxxxxxx], of specified score 1, it reports that no profile matches.
    On the empty catalog [rank_types[0]] raises [IndexError], so the
    resolver neither returns a pattern nor reports that no profile
    matches. *)
Theorem resolver_misses_best_specified_score :
  spec_match_names "STM32F405" "STM32Fxxx" = 6 ∧
  spec_match_names "STM32F405" "STM32F1" = 5 ∧
  _choose_mcu_file ["STM32Fxxx"; "STM32F1"] "STM32F405" = Ok "STM32F1.yaml" ∧
  spec_match_names "STM32F405" "Sxxxxxxxx" = 1 ∧
  _choose_mcu_file ["Sxxxxxxxx"] "STM32F405" = Err NoMatchingProfile ∧
  _choose_mcu_file [] "STM32F405" = Err IndexError.
Proof. by vm_compute. Qed.

(** X19. On a catalog with at least one pattern the resolver picks the
    first pattern with the highest score of [_match_names]; it stops with
    [NoMatchingProfile] exactly when that score is at most zero, and
    otherwise returns the file of that pattern. *)
Theorem choose_mcu_file_first_best (types : list string) (mcutype : string) :
  types ≠ [] →
  ∃ choice,
    first_best mcutype types choice ∧
    (score mcutype choice ≤ 0 →
       _choose_mcu_file types mcutype = Err NoMatchingProfile) ∧
    (0 < score mcutype choice →
       _choose_mcu_file types mcutype = Ok (choice +:+ ".yaml")) ∧
    (_choose_mcu_file types mcutype = Err NoMatchingProfile
       ↔ score mcutype choice ≤ 0).
Proof.
  intros Hne. unfold _choose_mcu_file.
  destruct (sorted_reverse (λ x, _match_names mcutype x) types)
    as [|choice s] eqn:Hs.
  { by apply sorted_reverse_nil in Hs. }
  exists choice. split.
  { apply (sorted_reverse_head (λ x, _match_names mcutype x)).
    by rewrite Hs. }
  unfold score. simpl.
  destruct (Z.leb_spec (_match_names mcutype choice) 0); repeat split;
    intros; try done; try lia.
Qed.

Lemma choose_mcu_file_first_best_witness :
  ["STM32F1xx"; "STM32F4xx"; "STM32F40x"] ≠ [] ∧
  ∃ choice,
    first_best "STM32F405" ["STM32F1xx"; "STM32F4xx"; "STM32F40x"] choice ∧
    (score "STM32F405" choice ≤ 0 →
       _choose_mcu_file ["STM32F1xx"; "STM32F4xx"; "STM32F40x"] "STM32F405"
       = Err NoMatchingProfile) ∧
    (0 < score "STM32F405" choice →
       _choose_mcu_file ["STM32F1xx"; "STM32F4xx"; "STM32F40x"] "STM32F405"
       = Ok (choice +:+ ".yaml")) ∧
    (_choose_mcu_file ["STM32F1xx"; "STM32F4xx"; "STM32F40x"] "STM32F405"
       = Err NoMatchingProfile
       ↔ score "STM32F405" choice ≤ 0).
Proof.
  split; [done|].
  apply (choose_mcu_file_first_best
           ["STM32F1xx"; "STM32F4xx"; "STM32F40x"] "STM32F405").
  done.
Defined.
(** ** The result monad *)

Lemma bind_Ok {A B} (c : result A) (k : A → result B) (b : B) :
  c ≫= k = Ok b ↔ ∃ a, c = Ok a ∧ k a = Ok b.
Proof.
  destruct c as [a|e]; simpl; split.
  - eauto.
  - by intros (? & [= <-] & ?).
  - done.
  - by intros (? & ? & ?).
Qed.

Lemma bind_Err {A B} (c : result A) (k : A → result B) (e : error) :
  c ≫= k = Err e ↔ c = Err e ∨ ∃ a, c = Ok a ∧ k a = Err e.
Proof.
  destruct c as [a|e']; simpl; split.
  - intros ?. right. eauto.
  - by intros [?|(? & [= <-] & ?)].
  - intros [= ->]. by left.
  - intros [[= ->]|(? & [=] & ?)]. done.
Qed.

Lemma is_ok_true {A} (r : result A) : is_ok r = true ↔ ∃ a, r = Ok a.
Proof.
  destruct r; simpl; split; [eauto|done|done|]. by intros [? ?].
Qed.

Lemma is_ok_false {A} (r : result A) : is_ok r = false ↔ ∃ e, r = Err e.
Proof.
  destruct r; simpl; split; [done| |eauto|done]. by intros [? ?].
Qed.

(** ** Strings *)

Lemma str_chars (s : string) : Py.str (Py.chars s) = s.
Proof. apply string_of_list_ascii_of_string. Qed.

Lemma chars_str (l : list ascii) : Py.chars (Py.str l) = l.
Proof. apply list_ascii_of_string_of_list_ascii. Qed.

(** [int] skips blanks and tabs around a number, not the separator FS. *)
Lemma int_white_space :
  Py.int (String "028" "5") = Err ValueError ∧
  Py.int (String "009" "5 ") = Ok 5 ∧
  Py.int "-1" = Ok (-1) ∧ Py.int "1_0" = Ok 10 ∧ Py.int "" = Err ValueError.
Proof. by vm_compute. Qed.

Lemma from_2 (a b : ascii) (s : string) :
  Py.from 2 (String a (String b s)) = s.
Proof. unfold Py.from. simpl. apply str_chars. Qed.

Lemma upto_2_inv (elm : string) (a b : ascii) :
  Py.upto 2 elm = String a (String b "") →
  ∃ rest, elm = String a (String b rest).
Proof.
  destruct elm as [|a' [|b' rest]]; try done.
  unfold Py.upto. simpl. intros [= -> ->]. by exists rest.
Qed.

(** ** The attribute parser *)

#[local] Arguments parse_elm : simpl never.

Lemma parse_loop_app mcu pin_data l1 l2 st :
  parse_loop mcu pin_data (l1 ++ l2) st
  = parse_loop mcu pin_data l1 st ≫= parse_loop mcu pin_data l2.
Proof.
  revert st. induction l1 as [|piece l1 IH]; intros st; simpl; [done|].
  destruct (parse_elm mcu pin_data st piece); simpl; [apply IH|done].
Qed.

Lemma guard_no_P mcu (c : ascii) (s : string) :
  c ≠ "P"%char → position_guard mcu (String c s) = Ok false.
Proof.
  intros Hc. unfold position_guard. simpl.
  destruct (decide (String c "" = "P")) as [[=]|]; done.
Qed.

Lemma mode_keyword_guard mcu elm :
  mode_keyword elm → position_guard mcu elm = Ok false.
Proof.
  unfold mode_keyword. intros H. set_unfold.
  destruct H as [->|[->|[->|[]]]]; by apply guard_no_P.
Qed.

Lemma AF_guard mcu elm :
  Py.upto 2 elm = "AF" → position_guard mcu elm = Ok false.
Proof. intros [rest ->]%upto_2_inv. by apply guard_no_P. Qed.

Lemma AF_not_plain elm :
  Py.upto 2 elm = "AF" → elm ∉ plain_keywords.
Proof.
  intros [rest ->]%upto_2_inv. unfold plain_keywords.
  rewrite !not_elem_of_cons. repeat split; try done. apply not_elem_of_nil.
Qed.

(** Membership in one family is membership in [plain_keywords]. *)
Ltac not_plain H :=
  let H' := fresh in
  intros H'; apply H; unfold plain_keywords; set_unfold; tauto.

(** A token that sets the mode: when the mode is already there the run
    stops with the conflict; otherwise the token is taken and the mode is
    there afterwards. *)
Lemma parse_elm_mode_token mcu pin_data pin raw piece :
  mode_keyword (normalize piece) ∨ af_keyword (normalize piece) →
  match d_mode pin with
  | Some _ => parse_elm mcu pin_data (pin, raw) piece = Err ConflictingMode
  | None => ∃ st', parse_elm mcu pin_data (pin, raw) piece = Ok st'
                   ∧ is_Some (d_mode st'.1)
  end.
Proof.
  unfold parse_elm. generalize (normalize piece). intros elm [Hm|[Haf Hint]].
  - rewrite (mode_keyword_guard mcu elm Hm). simpl.
    unfold mode_keyword in Hm.
    destruct (d_mode pin); rewrite decide_True by done; [done|].
    eexists. split; [done|]. simpl. eauto.
  - rewrite (AF_guard mcu elm Haf). simpl.
    apply is_ok_true in Hint as [a Hint].
    pose proof (AF_not_plain elm Haf) as Hnp.
    destruct (d_mode pin);
      repeat (rewrite decide_False by (not_plain Hnp));
      rewrite decide_True by done; [done|].
    rewrite Hint. simpl.
    eexists. split; [done|]. simpl. eauto.
Qed.

Lemma not_plain_intro elm :
  elm ∉ ["INPUT"; "OUTPUT"; "ANALOG"] →
  elm ∉ ["STARTLOW"; "STARTHIGH"] →
  elm ∉ ["PUSHPULL"; "OPENDRAIN"] →
  elm ∉ ["VERYLOWSPEED"; "LOWSPEED"; "MEDIUMSPEED"; "HIGHSPEED"] →
  elm ∉ ["FLOATING"; "PULLUP"; "PULLDOWN"] →
  elm ∉ plain_keywords.
Proof. unfold plain_keywords. set_unfold. tauto. Qed.

Lemma parse_elm_Ok mcu pin_data pin raw piece pin' raw' :
  parse_elm mcu pin_data (pin, raw) piece = Ok (pin', raw') →
  ∃ r, accepted mcu pin (normalize piece) pin' r
       ∧ raw' = if r then raw ++ [normalize piece] else raw.
Proof.
  unfold parse_elm. generalize (normalize piece). intros elm.
  destruct (position_guard mcu elm) as [[]|] eqn:Hg; simpl; [| |done].
  - destruct (Py.getitem elm 1) as [p|] eqn:Hp; simpl; [|done].
    destruct (Py.int (Py.from 2 elm)) as [i|] eqn:Hi; simpl; [|done].
    intros [= <- <-]. exists false. split; [|done]. by eapply acc_position.
  - destruct (decide (elm ∈ ["INPUT"; "OUTPUT"; "ANALOG"])) as [H1|H1].
    { destruct (d_mode pin) eqn:Hm; [done|]. intros [= <- <-].
      exists true. split; [|done]. by apply acc_mode. }
    destruct (decide (elm ∈ ["STARTLOW"; "STARTHIGH"])) as [H2|H2].
    { intros [= <- <-]. exists true. split; [|done]. by apply acc_od. }
    destruct (decide (elm ∈ ["PUSHPULL"; "OPENDRAIN"])) as [H3|H3].
    { intros [= <- <-]. exists true. split; [|done]. by apply acc_otype. }
    destruct (decide (elm ∈ ["VERYLOWSPEED"; "LOWSPEED"; "MEDIUMSPEED";
                             "HIGHSPEED"])) as [H4|H4].
    { intros [= <- <-]. exists true. split; [|done]. by apply acc_ospeed. }
    destruct (decide (elm ∈ ["FLOATING"; "PULLUP"; "PULLDOWN"])) as [H5|H5].
    { intros [= <- <-]. exists true. split; [|done]. by apply acc_pupd. }
    destruct (decide (Py.upto 2 elm = "AF")) as [H6|H6]; [|done].
    destruct (d_mode pin) eqn:Hm; [done|].
    destruct (Py.int (Py.from 2 elm)) as [a|] eqn:Ha; simpl; [|done].
    intros [= <- <-]. exists true. split; [|done].
    apply acc_af; auto using not_plain_intro.
Qed.

(** A token of one of the families is either taken or stops the run with
    the mode conflict. *)
Lemma parse_elm_keyword mcu pin_data st piece :
  keyword mcu (normalize piece) = true →
  (∃ st', parse_elm mcu pin_data st piece = Ok st')
  ∨ parse_elm mcu pin_data st piece = Err ConflictingMode.
Proof.
  destruct st as [pin raw]. unfold keyword, parse_elm.
  generalize (normalize piece). intros elm.
  destruct (position_guard mcu elm) as [[]|] eqn:Hg; simpl; [| |done].
  - intros _. unfold position_guard in Hg.
    destruct (Py.getitem elm 0) as [c0|]; simpl in Hg; [|done].
    destruct (decide (c0 = "P")); [|done].
    destruct (Py.getitem elm 1) as [c1|]; simpl in Hg |- *; [|done].
    destruct (decide (c1 ∈ ports mcu)); [|done].
    destruct (Py.int (Py.from 2 elm)); simpl in Hg |- *; [|done]. eauto.
  - intros Hk.
    repeat (destruct (decide (elm ∈ _));
            [try (destruct (d_mode pin)); eauto|]).
    apply orb_true_iff in Hk as [Hk|Hk].
    { apply bool_decide_eq_true in Hk. exfalso. revert Hk.
      by apply not_plain_intro. }
    apply andb_true_iff in Hk as [Hk%bool_decide_eq_true [a Ha]%is_ok_true].
    rewrite decide_True by done. destruct (d_mode pin); [eauto|].
    rewrite Ha. simpl. eauto.
Qed.

Lemma accepted_mode_mono mcu pin elm pin' r :
  accepted mcu pin elm pin' r → is_Some (d_mode pin) → is_Some (d_mode pin').
Proof. destruct 1; simpl; eauto. Qed.

Lemma parse_loop_mode_mono mcu pin_data pieces st st' :
  parse_loop mcu pin_data pieces st = Ok st' →
  is_Some (d_mode st.1) → is_Some (d_mode st'.1).
Proof.
  revert st. induction pieces as [|piece pieces IH]; intros st; simpl.
  - by intros [= <-].
  - intros (st1 & H1 & H2)%bind_Ok Hm. apply (IH _ H2).
    destruct st as [pin raw], st1 as [pin1 raw1].
    apply parse_elm_Ok in H1 as (r & Hacc & _).
    by eapply accepted_mode_mono.
Qed.

(** A run over tokens of the families ends regularly or in the conflict. *)
Lemma parse_loop_keywords mcu pin_data pieces st :
  Forall (λ piece, keyword mcu (normalize piece) = true) pieces →
  (∃ st', parse_loop mcu pin_data pieces st = Ok st')
  ∨ parse_loop mcu pin_data pieces st = Err ConflictingMode.
Proof.
  intros Hall. revert st. induction Hall as [|piece pieces Hk _ IH];
    intros st; simpl; [eauto|].
  destruct (parse_elm_keyword mcu pin_data st piece Hk) as [[st1 ->]| ->];
    simpl; [apply IH|by right].
Qed.

(** Two tokens that both set the mode: the run stops at the second one at
    the latest, and with the conflict unless another token stopped it. *)
Lemma parse_loop_two_mode_tokens mcu pin_data before a between b after st :
  mode_keyword (normalize a) ∨ af_keyword (normalize a) →
  mode_keyword (normalize b) ∨ af_keyword (normalize b) →
  ∃ e,
    parse_loop mcu pin_data (before ++ a :: between ++ b :: after) st = Err e
    ∧ (Forall (λ piece, keyword mcu (normalize piece) = true)
              (before ++ between) → e = ConflictingMode).
Proof.
  intros Ha Hb. rewrite parse_loop_app.
  destruct (parse_loop mcu pin_data before st) as [[pin1 raw1]|e] eqn:H1;
    simpl.
  2:{ exists e. split; [done|]. intros [Hbefore _]%Forall_app.
      destruct (parse_loop_keywords mcu pin_data before st Hbefore)
        as [[st' E]|E]; congruence. }
  pose proof (parse_elm_mode_token mcu pin_data pin1 raw1 a Ha) as Hstep.
  destruct (d_mode pin1).
  { rewrite Hstep. simpl. eauto. }
  destruct Hstep as ([pin2 raw2] & -> & Hm2). simpl in *.
  rewrite parse_loop_app.
  destruct (parse_loop mcu pin_data between (pin2, raw2))
    as [[pin3 raw3]|e] eqn:H3; simpl.
  2:{ exists e. split; [done|]. intros [_ Hbetween]%Forall_app.
      destruct (parse_loop_keywords mcu pin_data between (pin2, raw2)
                  Hbetween) as [[st' E]|E]; congruence. }
  apply parse_loop_mode_mono in H3; [|done]. simpl in H3.
  pose proof (parse_elm_mode_token mcu pin_data pin3 raw3 b Hb) as Hstep.
  destruct H3 as [m Hm3]. rewrite Hm3 in Hstep. rewrite Hstep. simpl. eauto.
Qed.

(** C4, amended. An attribute string that holds a mode keyword and an
    alternate-function keyword, in either order, never parses; when every
    piece before the later of the two belongs to a keyword family, the run
    ends with [ConflictingMode]. *)
Theorem mode_and_af_conflict
    mcu pin_data default before a between b after :
  Py.split "," pin_data = before ++ a :: between ++ b :: after →
  (mode_keyword (normalize a) ∧ af_keyword (normalize b))
  ∨ (af_keyword (normalize a) ∧ mode_keyword (normalize b)) →
  is_ok (_parse_data_str mcu pin_data default) = false ∧
  (Forall (λ piece, keyword mcu (normalize piece) = true)
          (before ++ between) →
   _parse_data_str mcu pin_data default = Err ConflictingMode).
Proof.
  intros Hsplit Hab. unfold _parse_data_str. rewrite Hsplit.
  destruct (parse_loop_two_mode_tokens mcu pin_data before a between b after
              (empty_dict, [])) as (e & -> & He); [tauto..|].
  simpl. split; [done|]. by intros ->%He.
Qed.

Lemma mode_and_af_conflict_witness :
  Py.split "," "PB5, OUTPUT, PULLUP, AF3, LOWSPEED"
    = ["PB5"] ++ " OUTPUT" :: [" PULLUP"] ++ " AF3" :: [" LOWSPEED"] ∧
  ((mode_keyword (normalize " OUTPUT") ∧ af_keyword (normalize " AF3"))
   ∨ (af_keyword (normalize " OUTPUT") ∧ mode_keyword (normalize " AF3"))) ∧
  Forall (λ piece, keyword stm32f4 (normalize piece) = true)
         (["PB5"] ++ [" PULLUP"]) ∧
  is_ok (_parse_data_str stm32f4 "PB5, OUTPUT, PULLUP, AF3, LOWSPEED" false)
    = false ∧
  _parse_data_str stm32f4 "PB5, OUTPUT, PULLUP, AF3, LOWSPEED" false
    = Err ConflictingMode.
Proof.
  assert (H1 : Py.split "," "PB5, OUTPUT, PULLUP, AF3, LOWSPEED"
    = ["PB5"] ++ " OUTPUT" :: [" PULLUP"] ++ " AF3" :: [" LOWSPEED"])
    by reflexivity.
  assert (H2 : (mode_keyword (normalize " OUTPUT")
                ∧ af_keyword (normalize " AF3"))
   ∨ (af_keyword (normalize " OUTPUT") ∧ mode_keyword (normalize " AF3"))).
  { left. split; [|by split]. unfold mode_keyword. by vm_compute; set_solver. }
  assert (H3 : Forall (λ piece, keyword stm32f4 (normalize piece) = true)
         (["PB5"] ++ [" PULLUP"])) by (repeat constructor).
  destruct (mode_and_af_conflict stm32f4
              "PB5, OUTPUT, PULLUP, AF3, LOWSPEED" false
              ["PB5"] " OUTPUT" [" PULLUP"] " AF3" [" LOWSPEED"] H1 H2)
    as [H4 H5].
  exact (conj H1 (conj H2 (conj H3 (conj H4 (H5 H3))))).
Defined.

(** C4 fails when an earlier token is rejected first: the string holds
    both [OUTPUT] and [AF3], and the run stops at [BOGUS]. *)
Lemma conflict_hidden_by_earlier_token :
  tokens "BOGUS, OUTPUT, AF3" = ["BOGUS"; "OUTPUT"; "AF3"] ∧
  mode_keyword "OUTPUT" ∧ af_keyword "AF3" ∧
  _parse_data_str stm32f4 "BOGUS, OUTPUT, AF3" false
    = Err (UnknownKeyword "BOGUS" "BOGUS, OUTPUT, AF3") ∧
  _parse_data_str stm32f4 "BOGUS, OUTPUT, AF3" false ≠ Err ConflictingMode.
Proof.
  split; [reflexivity|]. split; [unfold mode_keyword; set_solver|].
  split; [by split|]. split; [reflexivity|]. by vm_compute.
Qed.

(** *** Position tokens that the guard turns down *)

Lemma getitem_0 (a : ascii) (s : string) :
  Py.getitem (String a s) 0 = Ok (String a "").
Proof. done. Qed.

Lemma getitem_1 (a b : ascii) (s : string) :
  Py.getitem (String a (String b s)) 1 = Ok (String b "").
Proof. done. Qed.

Lemma guard_P mcu (c : ascii) (rest : string) :
  position_guard mcu (String "P" (String c rest))
  = if decide (String c "" ∈ ports mcu)
    then n ← Py.int rest; Ok (bool_decide (n < Z.of_nat (pins_per_port mcu)))
    else Ok false.
Proof.
  unfold position_guard. rewrite getitem_0, getitem_1.
  cbn [mbind result_bind]. rewrite decide_True by done. by rewrite from_2.
Qed.

(** No keyword of the other families is [P], a character and a number. *)
Lemma numbered_not_plain (c : ascii) (rest : string) (n : Z) :
  Py.int rest = Ok n → String "P" (String c rest) ∉ plain_keywords.
Proof.
  intros Hn Hin. unfold plain_keywords in Hin.
  repeat (apply elem_of_cons in Hin as [[=]|Hin]; simplify_eq);
    try by apply elem_of_nil in Hin.
Qed.

Lemma parse_elm_rejected_position mcu pin_data st piece (c : ascii) rest :
  normalize piece = String "P" (String c rest) →
  ((String c "" ∉ ports mcu)
   ∧ (String "P" (String c rest) ∉ ["PUSHPULL"; "PULLUP"; "PULLDOWN"]))
  ∨ (∃ n, Py.int rest = Ok n ∧ Z.of_nat (pins_per_port mcu) ≤ n) →
  parse_elm mcu pin_data st piece
  = Err (UnknownKeyword (String "P" (String c rest)) pin_data).
Proof.
  intros Hnorm Hcase. destruct st as [pin raw]. unfold parse_elm.
  rewrite Hnorm. set (elm := String "P" (String c rest)).
  assert (position_guard mcu elm = Ok false) as ->.
  { unfold elm. rewrite guard_P. destruct Hcase as [[Hc _]|(n & Hn & Hge)].
    - by rewrite decide_False.
    - destruct (decide (String c "" ∈ ports mcu)); [|done].
      rewrite Hn. simpl. by rewrite bool_decide_eq_false_2 by lia. }
  assert (elm ∉ plain_keywords) as Hnp.
  { destruct Hcase as [[_ Hk]|(n & Hn & _)];
      [|by eapply numbered_not_plain].
    intros Hin. apply Hk. unfold plain_keywords, elm in *.
    repeat (apply elem_of_cons in Hin as [[=]|Hin]; simplify_eq);
      try (by apply elem_of_nil in Hin); set_solver. }
  simpl. repeat (rewrite decide_False by (not_plain Hnp)).
  try rewrite decide_False by done. done.
Qed.

(** *** From one token to the attribute string *)

Lemma parse_data_str_stops mcu pin_data default before piece after st e :
  Py.split "," pin_data = before ++ piece :: after →
  parse_loop mcu pin_data before (empty_dict, []) = Ok st →
  parse_elm mcu pin_data st piece = Err e →
  _parse_data_str mcu pin_data default = Err e.
Proof.
  intros Hsplit Hbefore Hpiece. unfold _parse_data_str.
  rewrite Hsplit, parse_loop_app, Hbefore. simpl. by rewrite Hpiece.
Qed.

(** C7 fails: an index beyond the port, or a port that the profile does
    not have, is reported with the message for unknown keywords, and a
    suffix that is not a number raises an uncaught [ValueError]; no error
    of its own exists for positions. *)
Lemma bad_position_has_no_own_error :
  _parse_data_str stm32f4 "PA16" false = Err (UnknownKeyword "PA16" "PA16") ∧
  _parse_data_str stm32f4 "PZ3" false = Err (UnknownKeyword "PZ3" "PZ3") ∧
  _parse_data_str stm32f4 "BOGUS" false
    = Err (UnknownKeyword "BOGUS" "BOGUS") ∧
  _parse_data_str stm32f4 "PAxx" false = Err ValueError.
Proof. by vm_compute. Qed.

(** C7, amended. A position token whose port the profile does not have,
    or whose number is [pins_per_port] or more, ends the run with the
    message for unknown keywords, naming the token and the string. *)
Theorem bad_position_is_unknown_keyword
    mcu pin_data default before piece after st (c : ascii) rest :
  Py.split "," pin_data = before ++ piece :: after →
  parse_loop mcu pin_data before (empty_dict, []) = Ok st →
  normalize piece = String "P" (String c rest) →
  ((String c "" ∉ ports mcu)
   ∧ (String "P" (String c rest) ∉ ["PUSHPULL"; "PULLUP"; "PULLDOWN"]))
  ∨ (∃ n, Py.int rest = Ok n ∧ Z.of_nat (pins_per_port mcu) ≤ n) →
  _parse_data_str mcu pin_data default
  = Err (UnknownKeyword (String "P" (String c rest)) pin_data).
Proof.
  intros Hsplit Hbefore Hnorm Hcase.
  eapply parse_data_str_stops; [done..|].
  by apply parse_elm_rejected_position.
Qed.

Lemma bad_position_is_unknown_keyword_witness :
  Py.split "," "OUTPUT, pa16, PULLUP" = ["OUTPUT"] ++ " pa16" :: [" PULLUP"] ∧
  is_ok (parse_loop stm32f4 "OUTPUT, pa16, PULLUP" ["OUTPUT"]
           (empty_dict, [])) = true ∧
  normalize " pa16" = String "P" (String "A" "16") ∧
  Py.int "16" = Ok 16 ∧ Z.of_nat (pins_per_port stm32f4) ≤ 16 ∧
  _parse_data_str stm32f4 "OUTPUT, pa16, PULLUP" false
  = Err (UnknownKeyword "PA16" "OUTPUT, pa16, PULLUP").
Proof.
  repeat (split; [by vm_compute|]).
  eapply (bad_position_is_unknown_keyword stm32f4 "OUTPUT, pa16, PULLUP"
            false ["OUTPUT"] " pa16" [" PULLUP"] _ "A" "16").
  - reflexivity.
  - reflexivity.
  - reflexivity.
  - right. exists 16. split; [reflexivity|]. by vm_compute.
Defined.

(** C8: a piece that is empty after stripping (here after a trailing
    comma), the lone letter [P], and [AF] without a number all match no
    family, and the run ends in an uncaught exception instead of the
    message for unknown keywords. A token such as [Q] is reported. *)
Theorem unmatched_token_can_raise :
  _parse_data_str stm32f4 "OUTPUT," false = Err IndexError ∧
  _parse_data_str stm32f4 "" false = Err IndexError ∧
  _parse_data_str stm32f4 "P" false = Err IndexError ∧
  _parse_data_str stm32f4 "AFX" false = Err ValueError ∧
  keyword stm32f4 "" = false ∧ keyword stm32f4 "P" = false ∧
  keyword stm32f4 "AFX" = false ∧
  _parse_data_str stm32f4 "Q" false = Err (UnknownKeyword "Q" "Q").
Proof. by vm_compute. Qed.

(** *** Pins declared without a position *)

Lemma accepted_no_position mcu pin elm pin' r :
  accepted mcu pin elm pin' r →
  position_guard mcu elm ≠ Ok true →
  d_port pin' = d_port pin ∧ d_num pin' = d_num pin.
Proof. destruct 1; simpl; intros Hg; done. Qed.

Lemma parse_loop_no_position mcu pin_data pieces st st' :
  parse_loop mcu pin_data pieces st = Ok st' →
  Forall (λ piece, position_guard mcu (normalize piece) ≠ Ok true) pieces →
  d_port st'.1 = d_port st.1 ∧ d_num st'.1 = d_num st.1.
Proof.
  revert st. induction pieces as [|piece pieces IH]; intros st; simpl.
  - by intros [= <-].
  - intros (st1 & H1 & H2)%bind_Ok [Hp Hrest]%Forall_cons.
    destruct (IH _ H2 Hrest) as [-> ->].
    destruct st as [pin raw], st1 as [pin1 raw1].
    apply parse_elm_Ok in H1 as (r & Hacc & _).
    by eapply accepted_no_position.
Qed.

Lemma Pin_without_port pin : d_port pin = None → _Pin pin = Err TypeError.
Proof. unfold _Pin. intros ->. by destruct (d_name pin). Qed.

(** A default that passes [_default_check_data] has no position. *)
Lemma default_has_no_port mcu s default raw :
  _parse_data_str mcu s true = Ok (default, raw) → d_port default = None.
Proof.
  unfold _parse_data_str. intros ([pin raw'] & _ & H)%bind_Ok.
  apply bind_Ok in H as ([] & Hcheck & [= -> ->]).
  unfold _default_check_data in Hcheck.
  repeat match type of Hcheck with
         | context [match ?o with _ => _ end] => destruct o; try done
         end.
Qed.

Lemma parse_pin_data_no_position mcu name pin_data default :
  d_port default = None →
  Forall (λ piece, position_guard mcu (normalize piece) ≠ Ok true)
         (Py.split "," pin_data) →
  is_ok (_parse_pin_data mcu name pin_data default) = false ∧
  (is_ok (_parse_data_str mcu pin_data false) = true →
   _parse_pin_data mcu name pin_data default = Err TypeError).
Proof.
  intros Hd Hall. unfold _parse_pin_data.
  destruct (_parse_data_str mcu pin_data false) as [[data raw]|e] eqn:Hp;
    simpl; [|done].
  assert (d_port data = None) as Hdata.
  { unfold _parse_data_str in Hp.
    apply bind_Ok in Hp as ([pin raw'] & Hloop & [= -> ->]).
    by destruct (parse_loop_no_position _ _ _ _ _ Hloop Hall) as [H _]. }
  rewrite Pin_without_port; [done|]. simpl. by rewrite Hdata, Hd.
Qed.

Lemma declare_pins_stops mcu default decls st decl :
  decl ∈ decls →
  is_ok (_parse_pin_data mcu decl.1 decl.2 default) = false →
  is_ok (declare_pins mcu default decls st) = false.
Proof.
  intros Hin Hfail. revert st.
  induction decls as [|d decls IH]; intros st; [by apply elem_of_nil in Hin|].
  simpl. apply elem_of_cons in Hin as [<-|Hin].
  - destruct st as [tbl by_name]. unfold declare_pin.
    by destruct (_parse_pin_data mcu decl.1 decl.2 default).
  - destruct (declare_pin mcu default st d); simpl; [by apply IH|done].
Qed.

(** C3 fails: the name [PB5] spells a position, the attribute string has
    no position token, and the record cannot be built ([_Pin] lacks the
    arguments [port] and [num]); the whole build stops. *)
Lemma named_position_is_not_used :
  _parse_pin_data stm32f4 "PB5" "OUTPUT, PULLUP"
    (mkPinDict None None None (Some "INPUT") (Some "LOW") (Some "PUSHPULL")
               (Some "HIGH") (Some "FLOATING") (Some 0) None)
  = Err TypeError ∧
  Pins_init catalog
    (mkBoard "STM32F405" board_default [("PB5", "OUTPUT, PULLUP")])
  = Err TypeError.
Proof. by vm_compute. Qed.

(** C3, amended. A declared pin whose attribute string has no position
    token gets no position from its name: building its record fails (with
    [TypeError] when the string itself parses), and so does the build of
    the table. *)
Theorem pin_without_position_token_fails
    dir bd mcu default raw name pin_data :
  MCU_init dir (bd_mcutype bd) = Ok mcu →
  _parse_data_str mcu (bd_default bd) true = Ok (default, raw) →
  (name, pin_data) ∈ bd_pins bd →
  Forall (λ piece, position_guard mcu (normalize piece) ≠ Ok true)
         (Py.split "," pin_data) →
  is_ok (_parse_pin_data mcu name pin_data default) = false ∧
  (is_ok (_parse_data_str mcu pin_data false) = true →
   _parse_pin_data mcu name pin_data default = Err TypeError) ∧
  is_ok (Pins_init dir bd) = false.
Proof.
  intros Hmcu Hdefault Hin Hall.
  pose proof (default_has_no_port _ _ _ _ Hdefault) as Hport.
  destruct (parse_pin_data_no_position mcu name pin_data default Hport Hall)
    as [Hfail Herr].
  split; [done|]. split; [done|].
  unfold Pins_init. rewrite Hmcu. simpl. rewrite Hdefault. simpl.
  destruct (default_table mcu default (ports mcu) ∅) as [tbl|]; simpl;
    [|done].
  pose proof (declare_pins_stops mcu default (bd_pins bd) (tbl, ∅)
                (name, pin_data) Hin Hfail) as Hstop.
  by destruct (declare_pins mcu default (bd_pins bd) (tbl, ∅)) as [[]|].
Qed.

Lemma pin_without_position_token_fails_witness :
  MCU_init catalog "STM32F405" = Ok stm32f4 ∧
  is_ok (_parse_data_str stm32f4 board_default true) = true ∧
  ("PB5", "OUTPUT, PULLUP") ∈ [("LED", "PA1"); ("PB5", "OUTPUT, PULLUP")] ∧
  Forall (λ piece, position_guard stm32f4 (normalize piece) ≠ Ok true)
         (Py.split "," "OUTPUT, PULLUP") ∧
  is_ok (Pins_init catalog
           (mkBoard "STM32F405" board_default
                    [("LED", "PA1"); ("PB5", "OUTPUT, PULLUP")])) = false.
Proof.
  assert (H1 : MCU_init catalog "STM32F405" = Ok stm32f4) by reflexivity.
  assert (H3 : ("PB5", "OUTPUT, PULLUP")
               ∈ [("LED", "PA1"); ("PB5", "OUTPUT, PULLUP")])
    by (apply list_elem_of_In; simpl; auto).
  assert (H4 : Forall (λ piece, position_guard stm32f4 (normalize piece)
                                ≠ Ok true)
                      (Py.split "," "OUTPUT, PULLUP"))
    by (repeat constructor; by vm_compute).
  split; [exact H1|]. split; [reflexivity|]. split; [exact H3|].
  split; [exact H4|].
  eapply (pin_without_position_token_fails catalog
            (mkBoard "STM32F405" board_default
                     [("LED", "PA1"); ("PB5", "OUTPUT, PULLUP")])
            stm32f4 _ _ "PB5" "OUTPUT, PULLUP");
    [exact H1|reflexivity|exact H3|exact H4].
Defined.

(** ** The pin table *)

(** *** The values that the parser stores *)

Lemma valid_dict_empty : valid_dict empty_dict.
Proof. unfold valid_dict. simpl. repeat split; intros; done. Qed.

Lemma accepted_valid mcu pin elm pin' r :
  accepted mcu pin elm pin' r → valid_dict pin → valid_dict pin'.
Proof.
  unfold valid_dict.
  destruct 1 as [p i _ _ _|_ Hin Hm|_ Hin|_ Hin|_ Hin|_ Hin|a _ _ _ Hm _];
    simpl; intros (Hmode & Haf & Hod & Hot & Hos & Hpu & Hpn & Hn & Hr);
    split_and!; try done.
  - intros m [= <-]. split; [unfold modes; set_unfold; tauto|]. eauto.
  - intros v [= <-]. unfold levels. set_unfold.
    destruct Hin as [->|[->|[]]]; vm_compute; tauto.
  - intros v [= <-]. unfold otypes. set_unfold. tauto.
  - intros v [= <-]. unfold speeds. set_unfold.
    destruct Hin as [->|[->|[->|[->|[]]]]]; vm_compute; tauto.
  - intros v [= <-]. unfold pulls. set_unfold. tauto.
  - intros m [= <-]. split; [unfold modes; set_unfold; tauto|].
    exists a. split; [done|]. intros ?; done.
Qed.

Lemma parse_loop_valid mcu pin_data pieces st st' :
  parse_loop mcu pin_data pieces st = Ok st' →
  valid_dict st.1 → valid_dict st'.1.
Proof.
  revert st. induction pieces as [|piece pieces IH]; intros st; simpl.
  - by intros [= <-].
  - intros (st1 & H1 & H2)%bind_Ok Hv. apply (IH _ H2).
    destruct st as [pin raw], st1 as [pin1 raw1].
    apply parse_elm_Ok in H1 as (r & Hacc & _).
    by eapply accepted_valid.
Qed.

Lemma parse_data_str_valid mcu pin_data default pin raw :
  _parse_data_str mcu pin_data default = Ok (pin, raw) → valid_dict pin.
Proof.
  unfold _parse_data_str. intros ([pin' raw'] & Hloop & H)%bind_Ok.
  apply bind_Ok in H as (_ & _ & [= -> ->]).
  apply (parse_loop_valid _ _ _ _ _ Hloop), valid_dict_empty.
Qed.

(** A default that passes the check has the five attributes. *)
Lemma default_complete mcu s default raw :
  _parse_data_str mcu s true = Ok (default, raw) →
  is_Some (d_mode default) ∧ is_Some (d_od default) ∧
  is_Some (d_otype default) ∧ is_Some (d_ospeed default) ∧
  is_Some (d_pupd default) ∧ d_port default = None.
Proof.
  unfold _parse_data_str. intros ([pin raw'] & _ & H)%bind_Ok.
  apply bind_Ok in H as ([] & Hcheck & [= -> ->]).
  unfold _default_check_data in Hcheck.
  repeat match type of Hcheck with
         | context [match ?o with _ => _ end] => destruct o; try done
         end.
Qed.

(** *** Building records *)

Lemma Pin_Ok d pin :
  _Pin d = Ok pin →
  d_name d = Some (name pin) ∧ d_port d = Some (port pin) ∧
  d_num d = Some (num pin) ∧ d_mode d = Some (mode pin) ∧
  d_od d = Some (od pin) ∧ d_otype d = Some (otype pin) ∧
  d_ospeed d = Some (ospeed pin) ∧ d_pupd d = Some (pupd pin) ∧
  d_af d = Some (af pin) ∧ d_raw d = Some (raw pin).
Proof.
  unfold _Pin.
  destruct (d_name d); [|done]. destruct (d_port d); [|done].
  destruct (d_num d); [|done]. destruct (d_mode d); [|done].
  destruct (d_od d); [|done]. destruct (d_otype d); [|done].
  destruct (d_ospeed d); [|done]. destruct (d_pupd d); [|done].
  destruct (d_af d); [|done]. destruct (d_raw d); [|done].
  by intros [= <-].
Qed.

Lemma upd_Some {A} (old new : option A) (v : A) :
  upd old new = Some v → new = Some v ∨ (new = None ∧ old = Some v).
Proof. destruct new; simpl; auto. Qed.

Lemma valid_dict_attrs d pin :
  valid_dict d →
  d_mode d = Some (mode pin) → d_od d = Some (od pin) →
  d_otype d = Some (otype pin) → d_ospeed d = Some (ospeed pin) →
  d_pupd d = Some (pupd pin) → d_af d = Some (af pin) →
  valid_attrs pin.
Proof.
  intros (Hmode & _ & Hod & Hot & Hos & Hpu & _) Hm Ho Ht Hs Hp Ha.
  destruct (Hmode _ Hm) as (? & a & Ha' & Hzero).
  unfold valid_attrs. split_and!; eauto.
  intros Hne. specialize (Hzero Hne). congruence.
Qed.

(** Merging two dictionaries of the parser keeps the values valid. *)
Lemma update_valid d1 d2 :
  valid_dict d1 → valid_dict d2 → valid_dict (update d1 d2).
Proof.
  intros (Hmode1 & Haf1 & Hod1 & Hot1 & Hos1 & Hpu1 & Hpn1 & Hn1 & Hr1)
         (Hmode2 & Haf2 & Hod2 & Hot2 & Hos2 & Hpu2 & Hpn2 & Hn2 & Hr2).
  unfold valid_dict, update. simpl. repeat split.
  - destruct (upd_Some _ _ _ H) as [H2|[H2 H1]].
    + by destruct (Hmode2 _ H2).
    + by destruct (Hmode1 _ H1).
  - destruct (upd_Some _ _ _ H) as [H2|[H2 H1]].
    + destruct (Hmode2 _ H2) as (_ & a & -> & ?). eauto.
    + destruct (Hmode1 _ H1) as (_ & a & Ha & ?).
      rewrite (Haf2 H2). simpl. eauto.
  - destruct (d_mode d2) eqn:E2; simpl in *; [done|].
    intros H1. rewrite (Haf2 eq_refl). simpl. auto.
  - intros v [?|[_ ?]]%upd_Some; eauto.
  - intros v [?|[_ ?]]%upd_Some; eauto.
  - intros v [?|[_ ?]]%upd_Some; eauto.
  - intros v [?|[_ ?]]%upd_Some; eauto.
  - destruct (d_port d2) eqn:E2, (d_num d2) eqn:E3; simpl; try done;
      try (by apply Hpn1); try (destruct Hpn2 as [Ha Hb]; by auto).
  - destruct (d_port d2) eqn:E2, (d_num d2) eqn:E3; simpl; try done;
      try (by apply Hpn1); try (destruct Hpn2 as [Ha Hb]; by auto).
  - by rewrite Hn2, Hn1.
  - by rewrite Hr2, Hr1.
Qed.

Lemma upd_None_l {A} (new : option A) : upd None new = new.
Proof. by destruct new. Qed.

(** The record of a declaration: its name is the declared name in upper
    case, its attributes are valid, and its position passed the guard. *)
Lemma parse_pin_data_Ok mcu n pin_data default pin :
  valid_dict default →
  _parse_pin_data mcu n pin_data default = Ok pin →
  name pin = Py.upper n ∧ valid_attrs pin.
Proof.
  intros Hd. unfold _parse_pin_data.
  intros ([data raw] & Hparse & Hpin)%bind_Ok.
  apply parse_data_str_valid in Hparse as Hv.
  pose proof (update_valid _ _ Hd Hv) as Hu.
  apply Pin_Ok in Hpin. simpl in Hpin. rewrite !upd_None_l in Hpin.
  destruct Hpin as (Hn & _ & _ & Hm & Ho & Ht & Hs & Hp & Ha & _).
  split.
  - destruct Hd as (_ & _ & _ & _ & _ & _ & _ & Hn1 & _).
    destruct Hv as (_ & _ & _ & _ & _ & _ & _ & Hn2 & _).
    rewrite Hn1, Hn2 in Hn. simpl in Hn. congruence.
  - by apply (valid_dict_attrs (update default data)).
Qed.

(** The record of an unnamed position. *)
Lemma placeholder_Ok default p i pin :
  valid_dict default →
  placeholder default p i = Ok pin →
  name pin = "PIN" +:+ Py.of_int (Z.of_nat i) ∧ port pin = p ∧
  num pin = Z.of_nat i ∧ raw pin = "unused" ∧ valid_attrs pin ∧
  d_mode default = Some (mode pin) ∧ d_od default = Some (od pin) ∧
  d_otype default = Some (otype pin) ∧ d_ospeed default = Some (ospeed pin) ∧
  d_pupd default = Some (pupd pin) ∧ d_af default = Some (af pin).
Proof.
  intros Hd. unfold placeholder, _Pin_with.
  destruct (d_name default), (d_port default), (d_num default),
    (d_raw default); try done.
  intros Hpin%Pin_Ok. simpl in Hpin.
  destruct Hpin as ([= <-] & [= <-] & [= <-] & Hm & Ho & Ht & Hs & Hp & Ha
                    & [= <-]).
  split_and!; try done. by apply (valid_dict_attrs default).
Qed.

(** When the default is complete, every placeholder can be built. *)
Lemma placeholder_total mcu s default raw p i :
  _parse_data_str mcu s true = Ok (default, raw) →
  is_ok (placeholder default p i) = true.
Proof.
  intros Hparse.
  pose proof (parse_data_str_valid _ _ _ _ _ Hparse)
    as (Hmode & _ & _ & _ & _ & _ & Hpn & Hn & Hr).
  destruct (default_complete _ _ _ _ Hparse)
    as ([m Hm] & [o Ho] & [t Ht] & [sp Hs] & [pu Hp] & Hport).
  destruct (Hmode _ Hm) as (_ & a & Ha & _).
  unfold placeholder, _Pin_with, _Pin.
  rewrite Hn, Hport, (proj1 Hpn Hport), Hr. simpl.
  by rewrite Hm, Ho, Ht, Hs, Hp, Ha.
Qed.

(** *** The table before the declarations *)

Lemma default_row_Ok p default ns row :
  default_row p default ns = Ok row →
  Forall2 (λ i pin, placeholder default p i = Ok pin) ns row.
Proof.
  revert row. induction ns as [|n ns IH]; intros row; simpl.
  - intros [= <-]. constructor.
  - intros (pin & Hpin & H)%bind_Ok.
    apply bind_Ok in H as (row' & Hrow & [= <-]).
    constructor; [done|by apply IH].
Qed.

Lemma default_row_total mcu s default raw p ns :
  _parse_data_str mcu s true = Ok (default, raw) →
  is_ok (default_row p default ns) = true.
Proof.
  intros Hparse. induction ns as [|n ns IH]; simpl; [done|].
  pose proof (placeholder_total _ _ _ _ p n Hparse) as [pin ->]%is_ok_true.
  simpl. by apply is_ok_true in IH as [row ->].
Qed.

Lemma default_table_Ok mcu default ps acc tbl :
  default_table mcu default ps acc = Ok tbl →
  ∀ p,
    (p ∈ ps →
     ∃ row, default_row p default (seq 0 (pins_per_port mcu)) = Ok row
            ∧ tbl !! p = Some row)
    ∧ (p ∉ ps → tbl !! p = acc !! p).
Proof.
  revert acc. induction ps as [|q ps IH]; intros acc; simpl.
  - intros [= <-] p. split; [by intros ?%elem_of_nil|done].
  - intros (row & Hrow & Htbl)%bind_Ok p.
    destruct (IH _ Htbl p) as [Hin Hout].
    destruct (decide (p ∈ ps)) as [Hp|Hp].
    + split; [by intros _; apply Hin|]. rewrite not_elem_of_cons. tauto.
    + split.
      * intros [->|?]%elem_of_cons; [|done].
        exists row. split; [done|]. rewrite (Hout Hp).
        apply lookup_insert_eq.
      * intros [Hne _]%not_elem_of_cons. rewrite (Hout Hp).
        by apply lookup_insert_ne.
Qed.

Lemma default_table_dom mcu default tbl :
  default_table mcu default (ports mcu) ∅ = Ok tbl →
  dom tbl = list_to_set (ports mcu).
Proof.
  intros H. apply set_eq. intros p.
  rewrite elem_of_dom, elem_of_list_to_set.
  destruct (default_table_Ok _ _ _ _ _ H p) as [Hin Hout]. split.
  - intros Hsome. destruct (decide (p ∈ ports mcu)) as [|Hp]; [done|].
    rewrite (Hout Hp), lookup_empty in Hsome. by destruct Hsome.
  - intros (row & _ & ->)%Hin. eauto.
Qed.

Lemma default_table_rows mcu default tbl :
  default_table mcu default (ports mcu) ∅ = Ok tbl →
  rows_of_length (pins_per_port mcu) tbl.
Proof.
  intros H p row Hrow.
  destruct (default_table_Ok _ _ _ _ _ H p) as [Hin Hout].
  destruct (decide (p ∈ ports mcu)) as [Hp|Hp].
  - destruct (Hin Hp) as (row' & Hrow' & Hlook). simplify_eq.
    apply default_row_Ok, Forall2_length in Hrow'.
    by rewrite length_seq in Hrow'.
  - by rewrite (Hout Hp), lookup_empty in Hrow.
Qed.

Lemma default_table_cell mcu default tbl p i pin :
  default_table mcu default (ports mcu) ∅ = Ok tbl →
  cell tbl p i = Some pin →
  p ∈ ports mcu ∧ placeholder default p i = Ok pin.
Proof.
  intros H. unfold cell. intros (row & Hrow & Hpin)%bind_Some.
  destruct (default_table_Ok _ _ _ _ _ H p) as [Hin Hout].
  destruct (decide (p ∈ ports mcu)) as [Hp|Hp];
    [|by rewrite (Hout Hp), lookup_empty in Hrow].
  split; [done|].
  destruct (Hin Hp) as (row' & Hrow' & Hlook). simplify_eq.
  apply default_row_Ok in Hrow'.
  destruct (Forall2_lookup_r _ _ _ _ _ Hrow' Hpin) as (k & Hk & Hph).
  apply lookup_seq in Hk as [-> _]. done.
Qed.

(** *** One declaration *)

Lemma list_setitem_Ok {A} (l : list A) i v l' :
  list_setitem l i v = Ok l' →
  (index_of (length l) i < length l)%nat
  ∧ l' = <[index_of (length l) i := v]> l.
Proof.
  unfold list_setitem, index_of.
  repeat case_bool_decide; intros [= <-]; split; try done; lia.
Qed.

Lemma declare_pin_Ok mcu default tbl bn decl tbl' bn' :
  declare_pin mcu default (tbl, bn) decl = Ok (tbl', bn') →
  ∃ pin row,
    _parse_pin_data mcu decl.1 decl.2 default = Ok pin ∧
    tbl !! port pin = Some row ∧
    (index_of (length row) (num pin) < length row)%nat ∧
    tbl' = <[port pin := <[index_of (length row) (num pin) := pin]> row]> tbl ∧
    bn' = <[name pin := pin]> bn.
Proof.
  unfold declare_pin. intros (pin & Hpin & H)%bind_Ok.
  apply bind_Ok in H as (row & Hrow & H).
  apply bind_Ok in H as (row' & Hset & [= <- <-]).
  destruct (tbl !! port pin) as [row0|] eqn:Hlook; simplify_eq/=.
  apply list_setitem_Ok in Hset as [Hlt ->]. by exists pin, row.
Qed.

(** What one declaration changes in the table: the record at its target
    and nothing else. *)
Lemma declare_pin_cell mcu default tbl bn decl tbl' bn' pin :
  rows_of_length (pins_per_port mcu) tbl →
  declare_pin mcu default (tbl, bn) decl = Ok (tbl', bn') →
  _parse_pin_data mcu decl.1 decl.2 default = Ok pin →
  rows_of_length (pins_per_port mcu) tbl' ∧ dom tbl' = dom tbl ∧
  (index_of (pins_per_port mcu) (num pin) < pins_per_port mcu)%nat ∧
  ∀ p i,
    cell tbl' p i
    = if decide (port pin = p ∧ index_of (pins_per_port mcu) (num pin) = i)
      then Some pin else cell tbl p i.
Proof.
  intros Hrows (pin' & row & Hpin & Hrow & Hlt & -> & _)%declare_pin_Ok Hpin'.
  assert (pin' = pin) as -> by congruence.
  rewrite (Hrows _ _ Hrow) in *. split_and!.
  - intros p row'. destruct (decide (port pin = p)) as [<-|Hne].
    + rewrite lookup_insert_eq. intros [= <-].
      rewrite length_insert. by eapply Hrows.
    + rewrite lookup_insert_ne by done. apply Hrows.
  - rewrite dom_insert_L. apply elem_of_dom_2 in Hrow. set_solver.
  - done.
  - intros p i. unfold cell. destruct (decide (port pin = p)) as [<-|Hne].
    + rewrite lookup_insert_eq, Hrow. simpl.
      destruct (decide (index_of (pins_per_port mcu) (num pin) = i))
        as [<-|Hi].
      * rewrite decide_True by done. apply list_lookup_insert_eq.
        by rewrite (Hrows _ _ Hrow).
      * rewrite decide_False by tauto. by apply list_lookup_insert_ne.
    + rewrite lookup_insert_ne by done. by rewrite decide_False by tauto.
Qed.

Lemma targets_true mcu default p i decl :
  targets mcu default p i decl = true ↔
  ∃ pin, _parse_pin_data mcu decl.1 decl.2 default = Ok pin ∧ port pin = p
         ∧ index_of (pins_per_port mcu) (num pin) = i.
Proof.
  unfold targets.
  destruct (_parse_pin_data mcu decl.1 decl.2 default) as [pin|]; split.
  - intros H%bool_decide_eq_true. exists pin. tauto.
  - intros (pin' & [= <-] & H). by apply bool_decide_eq_true.
  - done.
  - by intros (? & ? & _).
Qed.

(** *** All declarations *)

Lemma declare_pins_app mcu default l1 l2 st :
  declare_pins mcu default (l1 ++ l2) st
  = declare_pins mcu default l1 st ≫= declare_pins mcu default l2.
Proof.
  revert st. induction l1 as [|d l1 IH]; intros st; simpl; [done|].
  destruct (declare_pin mcu default st d); simpl; [apply IH|done].
Qed.

Lemma declare_pins_shape mcu default decls tbl bn tbl' bn' :
  rows_of_length (pins_per_port mcu) tbl →
  declare_pins mcu default decls (tbl, bn) = Ok (tbl', bn') →
  rows_of_length (pins_per_port mcu) tbl' ∧ dom tbl' = dom tbl.
Proof.
  revert tbl bn. induction decls as [|d decls IH]; intros tbl bn Hrows; simpl.
  - by intros [= <- <-].
  - intros ([tbl1 bn1] & Hstep & Hrest)%bind_Ok.
    pose proof Hstep as (pin & _ & Hpin & _)%declare_pin_Ok.
    destruct (declare_pin_cell _ _ _ _ _ _ _ _ Hrows Hstep Hpin)
      as (Hrows1 & Hdom1 & _).
    destruct (IH _ _ Hrows1 Hrest) as [? ?]. split; [done|congruence].
Qed.

(** A position that no declaration targets keeps its record. *)
Lemma declare_pins_untouched mcu default decls tbl bn tbl' bn' p i :
  rows_of_length (pins_per_port mcu) tbl →
  declare_pins mcu default decls (tbl, bn) = Ok (tbl', bn') →
  Forall (λ decl, targets mcu default p i decl = false) decls →
  cell tbl' p i = cell tbl p i.
Proof.
  revert tbl bn. induction decls as [|d decls IH]; intros tbl bn Hrows; simpl.
  - by intros [= <- <-].
  - intros ([tbl1 bn1] & Hstep & Hrest)%bind_Ok [Hd Hall]%Forall_cons.
    pose proof Hstep as (pin & _ & Hpin & _)%declare_pin_Ok.
    destruct (declare_pin_cell _ _ _ _ _ _ _ _ Hrows Hstep Hpin)
      as (Hrows1 & _ & _ & Hcell).
    rewrite (IH _ _ Hrows1 Hrest Hall), Hcell.
    apply decide_False. intros [Hp Hi].
    assert (targets mcu default p i d = true); [|congruence].
    apply targets_true. eauto.
Qed.

(** The last declaration that targets a position decides its record. *)
Lemma declare_pins_last mcu default pre decl post tbl bn tbl' bn' pin :
  rows_of_length (pins_per_port mcu) tbl →
  declare_pins mcu default (pre ++ decl :: post) (tbl, bn) = Ok (tbl', bn') →
  _parse_pin_data mcu decl.1 decl.2 default = Ok pin →
  Forall (λ d,
            targets mcu default (port pin)
                    (index_of (pins_per_port mcu) (num pin)) d = false)
         post →
  cell tbl' (port pin) (index_of (pins_per_port mcu) (num pin)) = Some pin.
Proof.
  intros Hrows Hrun Hpin Hpost. rewrite declare_pins_app in Hrun.
  apply bind_Ok in Hrun as ([tbl1 bn1] & Hpre & Hrun). simpl in Hrun.
  apply bind_Ok in Hrun as ([tbl2 bn2] & Hstep & Hrest).
  destruct (declare_pins_shape _ _ _ _ _ _ _ Hrows Hpre) as [Hrows1 _].
  destruct (declare_pin_cell _ _ _ _ _ _ _ _ Hrows1 Hstep Hpin)
    as (Hrows2 & _ & _ & Hcell).
  rewrite (declare_pins_untouched _ _ _ _ _ _ _ _ _ Hrows2 Hrest Hpost).
  rewrite Hcell. by apply decide_True.
Qed.

(** Either no declaration targets a position, or there is a last one. *)
Lemma last_target mcu default p i decls :
  Forall (λ d, targets mcu default p i d = false) decls
  ∨ ∃ pre decl post,
      decls = pre ++ decl :: post ∧ targets mcu default p i decl = true
      ∧ Forall (λ d, targets mcu default p i d = false) post.
Proof.
  induction decls as [|d decls [IH|(pre & decl & post & -> & Ht & Hpost)]].
  - left. constructor.
  - destruct (targets mcu default p i d) eqn:Hd.
    + right. by exists [], d, decls.
    + left. by constructor.
  - right. by exists (d :: pre), decl, post.
Qed.

(** *** The index by name *)

Lemma declare_pins_names mcu default decls tbl bn tbl' bn' :
  valid_dict default →
  declare_pins mcu default decls (tbl, bn) = Ok (tbl', bn') →
  (∀ decl, decl ∈ decls → is_Some (bn' !! Py.upper decl.1)) ∧
  (∀ k, is_Some (bn !! k) → is_Some (bn' !! k)) ∧
  (∀ k pin, bn' !! k = Some pin →
     bn !! k = Some pin
     ∨ ∃ decl, decl ∈ decls
               ∧ _parse_pin_data mcu decl.1 decl.2 default = Ok pin
               ∧ k = Py.upper decl.1 ∧ name pin = k).
Proof.
  intros Hd. revert tbl bn.
  induction decls as [|d decls IH]; intros tbl bn; simpl.
  - intros [= <- <-]. split_and!; [by intros ? ?%elem_of_nil|done|auto].
  - intros ([tbl1 bn1] & Hstep & Hrest)%bind_Ok.
    apply declare_pin_Ok in Hstep as (pin & row & Hpin & _ & _ & _ & ->).
    destruct (parse_pin_data_Ok _ _ _ _ _ Hd Hpin) as [Hname _].
    destruct (IH _ _ Hrest) as (Hin & Hmono & Horigin). split_and!.
    + intros decl [->|?]%elem_of_cons; [|by apply Hin].
      apply Hmono. rewrite <-Hname, lookup_insert_eq. eauto.
    + intros k Hk. apply Hmono.
      destruct (decide (name pin = k)) as [<-|Hne].
      * rewrite lookup_insert_eq. eauto.
      * by rewrite lookup_insert_ne.
    + intros k pin' [Hk|(decl & Hdecl & ? & ? & ?)]%Horigin.
      * destruct (decide (name pin = k)) as [<-|Hne].
        -- rewrite lookup_insert_eq in Hk. injection Hk as <-.
           right. exists d. split; [apply elem_of_cons; auto|].
           by rewrite <-Hname.
        -- rewrite lookup_insert_ne in Hk by done. by left.
      * right. exists decl. split; [apply elem_of_cons; auto|done].
Qed.



(** *** The stages of [Pins.__init__] *)

Lemma Pins_init_Ok dir bd pins :
  Pins_init dir bd = Ok pins →
  ∃ default raw tbl0,
    MCU_init dir (bd_mcutype bd) = Ok (mcu pins) ∧
    _parse_data_str (mcu pins) (bd_default bd) true = Ok (default, raw) ∧
    default_of (mcu pins) bd = Ok default ∧
    default_table (mcu pins) default (ports (mcu pins)) ∅ = Ok tbl0 ∧
    declare_pins (mcu pins) default (bd_pins bd) (tbl0, ∅)
    = Ok (_pins pins, _pins_by_name pins).
Proof.
  unfold Pins_init. intros (m & Hm & H)%bind_Ok.
  apply bind_Ok in H as ([default raw] & Hdef & H).
  apply bind_Ok in H as (tbl0 & Htbl & H).
  apply bind_Ok in H as ([tbl bn] & Hrun & [= <-]). simpl.
  exists default, raw, tbl0. split_and!; try done.
  unfold default_of. by rewrite Hdef.
Qed.

(** *** The built table *)

Lemma sum_list_const (n : nat) (l : list nat) :
  Forall (λ x, x = n) l → sum_list l = (length l * n)%nat.
Proof. induction 1; simpl; [done|]. lia. Qed.

Lemma table_size_rows n (tbl : gmap string (list Pin)) :
  rows_of_length n tbl → table_size tbl = (size tbl * n)%nat.
Proof.
  intros Hrows. unfold table_size.
  rewrite (sum_list_const n).
  - by rewrite !length_fmap, length_map_to_list.
  - apply Forall_fmap, Forall_fmap, Forall_forall. intros [p row] Hin.
    apply elem_of_map_to_list in Hin. simpl. by eapply Hrows.
Qed.

Lemma pin_by_port_cell pins p i pin :
  Py.upper p = p →
  cell (_pins pins) p i = Some pin →
  pin_by_port pins p (Z.of_nat i) = Ok pin.
Proof.
  intros Hp. unfold cell, pin_by_port. rewrite Hp.
  intros (row & -> & Hpin)%bind_Some. simpl. unfold list_getitem.
  apply lookup_lt_Some in Hpin as Hlt.
  rewrite bool_decide_eq_true_2 by lia. by rewrite Nat2Z.id, Hpin.
Qed.

(** C5. After a successful build the table has one row per port of the
    profile and [pins_per_port] records per row, so [|ports| *
    pins_per_port] records in all; each position of each port holds a
    record, which [pin_by_port] returns; every record carries its port and
    a value of the data model in each attribute, and it is either the
    record of a declaration or the placeholder named [PIN<index>] with the
    attributes of the default. *)
Theorem pin_table_complete dir bd pins :
  Pins_init dir bd = Ok pins →
  let m := mcu pins in
  dom (_pins pins) = list_to_set (ports m) ∧
  rows_of_length (pins_per_port m) (_pins pins) ∧
  table_size (_pins pins)
  = (size (list_to_set (ports m) : gset string) * pins_per_port m)%nat ∧
  (NoDup (ports m) →
   table_size (_pins pins) = (length (ports m) * pins_per_port m)%nat) ∧
  (∀ p i, p ∈ ports m → (i < pins_per_port m)%nat →
     ∃ pin, cell (_pins pins) p i = Some pin
            ∧ (Py.upper p = p → pin_by_port pins p (Z.of_nat i) = Ok pin)) ∧
  (∀ p i pin, cell (_pins pins) p i = Some pin →
     port pin = p ∧ valid_attrs pin ∧
     ((∃ decl, decl ∈ bd_pins bd ∧ declared m bd decl = Ok pin)
      ∨ (unnamed m bd p i = Ok pin
         ∧ name pin = "PIN" +:+ Py.of_int (Z.of_nat i)
         ∧ num pin = Z.of_nat i ∧ raw pin = "unused"))).
Proof.
  intros (default & raw0 & tbl0 & Hm & Hdef & Hdef' & Htbl0 & Hrun)%Pins_init_Ok.
  simpl. pose proof (parse_data_str_valid _ _ _ _ _ Hdef) as Hvalid.
  pose proof (default_table_rows _ _ _ Htbl0) as Hrows0.
  destruct (declare_pins_shape _ _ _ _ _ _ _ Hrows0 Hrun) as [Hrows Hdom].
  rewrite (default_table_dom _ _ _ Htbl0) in Hdom.
  assert (table_size (_pins pins)
          = (size (list_to_set (ports (mcu pins)) : gset string)
             * pins_per_port (mcu pins))%nat) as Hsize.
  { rewrite (table_size_rows _ _ Hrows). by rewrite <-Hdom, size_dom. }
  split_and!; try done.
  - intros Hnd. by rewrite Hsize, size_list_to_set.
  - intros p i Hp Hi.
    assert (p ∈ dom (_pins pins)) as [row Hrow]%elem_of_dom
      by (rewrite Hdom; by apply elem_of_list_to_set).
    destruct (lookup_lt_is_Some_2 row i) as [pin Hpin];
      [by rewrite (Hrows _ _ Hrow)|].
    assert (cell (_pins pins) p i = Some pin) as Hcell
      by (unfold cell; by rewrite Hrow).
    exists pin. split; [done|]. intros Hup. by apply pin_by_port_cell.
  - intros p i pin Hcell.
    destruct (last_target (mcu pins) default p i (bd_pins bd))
      as [Hnone|(pre & decl & post & Hsplit & Hdecl & Hpost)].
    + rewrite (declare_pins_untouched _ _ _ _ _ _ _ _ _ Hrows0 Hrun Hnone)
        in Hcell.
      destruct (default_table_cell _ _ _ _ _ _ Htbl0 Hcell) as [_ Hph].
      destruct (placeholder_Ok _ _ _ _ Hvalid Hph)
        as (Hname & Hport & Hnum & Hraw & Hattrs & _).
      split_and!; try done. right. split_and!; try done.
      unfold unnamed. by rewrite Hdef'.
    + apply targets_true in Hdecl as (pin' & Hpin' & <- & <-).
      rewrite Hsplit in Hrun.
      rewrite (declare_pins_last _ _ _ _ _ _ _ _ _ _ Hrows0 Hrun Hpin' Hpost)
        in Hcell.
      injection Hcell as <-.
      destruct (parse_pin_data_Ok _ _ _ _ _ Hvalid Hpin') as [_ Hattrs].
      split_and!; try done. left. exists decl. split.
      * rewrite Hsplit. apply elem_of_app. right. apply elem_of_cons. auto.
      * unfold declared. by rewrite Hdef'.
Qed.

Lemma pin_table_complete_witness :
  ∃ pins,
    Pins_init catalog board = Ok pins ∧
    dom (_pins pins) = list_to_set (ports (mcu pins)) ∧
    rows_of_length (pins_per_port (mcu pins)) (_pins pins) ∧
    table_size (_pins pins) = 32%nat.
Proof.
  destruct (Pins_init catalog board) as [pins|e] eqn:E;
    [|by vm_compute in E].
  exists pins. split; [done|].
  destruct (pin_table_complete catalog board pins E)
    as (Hdom & Hrows & Hsize & _).
  split; [done|]. split; [done|]. rewrite Hsize.
  assert (mcu pins = stm32f4) as ->; [|done].
  apply Pins_init_Ok in E as (_ & _ & _ & Hm & _).
  assert (MCU_init catalog (bd_mcutype board) = Ok stm32f4) as Hm'
    by reflexivity.
  congruence.
Defined.

(** C6. When two declarations target the same position and no later one
    does, the record at that position is the record of the later
    declaration, which is computed from that declaration and the board
    default alone. *)
Theorem later_declaration_wins
    dir bd pins pre d1 mid d2 post pin1 pin2 :
  Pins_init dir bd = Ok pins →
  let m := mcu pins in
  bd_pins bd = pre ++ d1 :: mid ++ d2 :: post →
  declared m bd d1 = Ok pin1 →
  declared m bd d2 = Ok pin2 →
  port pin1 = port pin2 →
  index_of (pins_per_port m) (num pin1)
  = index_of (pins_per_port m) (num pin2) →
  (∀ d pin, d ∈ post → declared m bd d = Ok pin →
     ¬ (port pin = port pin2
        ∧ index_of (pins_per_port m) (num pin)
          = index_of (pins_per_port m) (num pin2))) →
  cell (_pins pins) (port pin1) (index_of (pins_per_port m) (num pin1))
  = Some pin2 ∧
  ∃ default,
    default_of m bd = Ok default ∧
    _parse_pin_data m d2.1 d2.2 default = Ok pin2.
Proof.
  intros (default & raw0 & tbl0 & Hm & Hdef & Hdef' & Htbl0 & Hrun)%Pins_init_Ok.
  simpl. intros Hsplit _ Hd2 -> -> Hpost.
  unfold declared in Hd2, Hpost. rewrite Hdef' in Hd2, Hpost.
  simpl in Hd2, Hpost.
  split; [|by exists default].
  pose proof (default_table_rows _ _ _ Htbl0) as Hrows0.
  rewrite Hsplit in Hrun.
  assert (pre ++ d1 :: mid ++ d2 :: post = (pre ++ d1 :: mid) ++ d2 :: post)
    as Hassoc by (by rewrite <-app_assoc).
  rewrite Hassoc in Hrun.
  eapply declare_pins_last; [done|exact Hrun|done|].
  apply Forall_forall. intros d Hd.
  destruct (targets (mcu pins) default _ _ d) eqn:Ht; [|done].
  apply targets_true in Ht as (pin & Hpin & Hp & Hi).
  by destruct (Hpost d pin Hd Hpin).
Qed.

Lemma board_mcu pins : Pins_init catalog board = Ok pins → mcu pins = stm32f4.
Proof.
  intros (_ & _ & _ & Hm & _)%Pins_init_Ok.
  assert (MCU_init catalog (bd_mcutype board) = Ok stm32f4) as Hm'
    by reflexivity.
  congruence.
Qed.

Lemma later_declaration_wins_witness :
  ∃ pins pin1 pin2,
    Pins_init catalog board = Ok pins ∧
    bd_pins board
    = [] ++ ("led1", "PB5, STARTHIGH, LOWSPEED")
         :: [("btn", "PA0, INPUT, PULLUP")] ++ ("led2", "PB5, AF7") :: [] ∧
    declared (mcu pins) board ("led1", "PB5, STARTHIGH, LOWSPEED") = Ok pin1 ∧
    declared (mcu pins) board ("led2", "PB5, AF7") = Ok pin2 ∧
    port pin1 = port pin2 ∧
    index_of (pins_per_port (mcu pins)) (num pin1)
    = index_of (pins_per_port (mcu pins)) (num pin2) ∧
    cell (_pins pins) (port pin1)
         (index_of (pins_per_port (mcu pins)) (num pin1)) = Some pin2 ∧
    (od pin1, ospeed pin1) = ("HIGH", "LOW") ∧
    (name pin2, od pin2, ospeed pin2, mode pin2, af pin2)
    = ("LED2", "LOW", "HIGH", "ALTERNATE", 7).
Proof.
  destruct (Pins_init catalog board) as [pins|e] eqn:E;
    [|by vm_compute in E].
  pose proof (board_mcu pins E) as Hmcu.
  destruct (declared stm32f4 board ("led1", "PB5, STARTHIGH, LOWSPEED"))
    as [pin1|e] eqn:E1; [|by vm_compute in E1].
  destruct (declared stm32f4 board ("led2", "PB5, AF7"))
    as [pin2|e] eqn:E2; [|by vm_compute in E2].
  exists pins, pin1, pin2. rewrite Hmcu.
  assert (H1 : Ok pin1 = declared stm32f4 board
                           ("led1", "PB5, STARTHIGH, LOWSPEED")) by done.
  assert (H2 : Ok pin2 = declared stm32f4 board ("led2", "PB5, AF7"))
    by done.
  vm_compute in H1, H2. injection H1 as ->. injection H2 as ->.
  assert (Hsplit : bd_pins board
    = [] ++ ("led1", "PB5, STARTHIGH, LOWSPEED")
         :: [("btn", "PA0, INPUT, PULLUP")] ++ ("led2", "PB5, AF7") :: [])
    by reflexivity.
  split; [done|]. split; [exact Hsplit|]. split; [done|]. split; [done|].
  split; [reflexivity|]. split; [reflexivity|]. split; [|by split].
  rewrite <-Hmcu in E1, E2.
  refine (proj1 (later_declaration_wins catalog board pins [] _ _ _ [] _ _
                   E Hsplit E1 E2 eq_refl _ _)).
  - by rewrite Hmcu.
  - by intros d pin ?%elem_of_nil.
Defined.

(** ** The emitter *)

(** Where the record of a position comes from. *)
Lemma built_cell_origin dir bd pins p i pin :
  Pins_init dir bd = Ok pins →
  cell (_pins pins) p i = Some pin →
  (∃ default, default_of (mcu pins) bd = Ok default
              ∧ placeholder default p i = Ok pin ∧ valid_dict default)
  ∨ (∃ decl, decl ∈ bd_pins bd ∧ declared (mcu pins) bd decl = Ok pin
             ∧ port pin = p
             ∧ index_of (pins_per_port (mcu pins)) (num pin) = i).
Proof.
  intros (default & raw0 & tbl0 & Hm & Hdef & Hdef' & Htbl0 & Hrun)%Pins_init_Ok
         Hcell.
  pose proof (default_table_rows _ _ _ Htbl0) as Hrows0.
  destruct (last_target (mcu pins) default p i (bd_pins bd))
    as [Hnone|(pre & decl & post & Hsplit & Hdecl & Hpost)].
  - rewrite (declare_pins_untouched _ _ _ _ _ _ _ _ _ Hrows0 Hrun Hnone)
      in Hcell.
    destruct (default_table_cell _ _ _ _ _ _ Htbl0 Hcell) as [_ Hph].
    left. exists default. split_and!; try done.
    by eapply parse_data_str_valid.
  - apply targets_true in Hdecl as (pin' & Hpin' & <- & <-).
    rewrite Hsplit in Hrun.
    rewrite (declare_pins_last _ _ _ _ _ _ _ _ _ _ Hrows0 Hrun Hpin' Hpost)
      in Hcell.
    injection Hcell as <-. right. exists decl. split_and!; try done.
    + rewrite Hsplit. apply elem_of_app. right. apply elem_of_cons. auto.
    + unfold declared. by rewrite Hdef'.
Qed.

(** A record whose number is not negative sits at that number. *)
Lemma built_row_indexed dir bd pins p row i pin :
  Pins_init dir bd = Ok pins →
  _pins pins !! p = Some row → row !! i = Some pin →
  0 ≤ num pin → num pin = Z.of_nat i.
Proof.
  intros Hinit Hrow Hpin Hnum.
  assert (cell (_pins pins) p i = Some pin) as Hcell
    by (unfold cell; by rewrite Hrow).
  destruct (built_cell_origin _ _ _ _ _ _ Hinit Hcell)
    as [(default & _ & Hph & Hv)|(decl & _ & _ & _ & Hi)].
  - by destruct (placeholder_Ok _ _ _ _ Hv Hph) as (_ & _ & ? & _).
  - unfold index_of in Hi. rewrite bool_decide_eq_true_2 in Hi by done. lia.
Qed.

Lemma filter_all {A} (P : A → Prop) `{!∀ x, Decision (P x)} (l : list A) :
  Forall P l → filter P l = l.
Proof.
  induction 1 as [|x l Hx _ IH]; [done|].
  by rewrite filter_cons, decide_True, IH.
Qed.

Lemma filter_none {A} (P : A → Prop) `{!∀ x, Decision (P x)} (l : list A) :
  Forall (λ x, ¬ P x) l → filter P l = [].
Proof.
  induction 1 as [|x l Hx _ IH]; [done|].
  by rewrite filter_cons, decide_False, IH.
Qed.

(** In a row where each record sits at its number, the records below 8
    are the first eight and the others are the rest. *)
Lemma indexed_row_split (row : list Pin) :
  (∀ i pin, row !! i = Some pin → num pin = Z.of_nat i) →
  filter (λ pin, num pin < 8) row = take 8 row
  ∧ filter (λ pin, num pin >= 8) row = drop 8 row.
Proof.
  intros Hidx.
  assert (Forall (λ pin, num pin < 8) (take 8 row)) as Hlo.
  { apply Forall_lookup. intros i pin [Hpin Hi]%lookup_take_Some.
    rewrite (Hidx _ _ Hpin). lia. }
  assert (Forall (λ pin, num pin >= 8) (drop 8 row)) as Hhi.
  { apply Forall_lookup. intros i pin Hpin. rewrite lookup_drop in Hpin.
    rewrite (Hidx _ _ Hpin). lia. }
  rewrite <-(take_drop 8 row) at 1 3. rewrite !filter_app.
  rewrite (filter_all _ _ Hlo), (filter_all _ _ Hhi).
  rewrite (filter_none (λ pin, num pin < 8) (drop 8 row)),
    (filter_none (λ pin, num pin >= 8) (take 8 row)).
  - by rewrite app_nil_r.
  - eapply Forall_impl; [exact Hlo|]. simpl. lia.
  - eapply Forall_impl; [exact Hhi|]. simpl. lia.
Qed.

Lemma for_each_total {A B} (f : A → result B) (xs : list A) :
  Forall (λ x, is_ok (f x) = true) xs → is_ok (for_each f xs) = true.
Proof.
  induction 1 as [|x xs [y Hy]%is_ok_true _ [ys Hys]%is_ok_true]; [done|].
  simpl. by rewrite Hy, Hys.
Qed.

Lemma register_macro_total p reg row :
  reg ∈ ["MODE"; "OTYPE"; "OSPEED"; "PUPD"; "OD"] →
  is_ok (register_macro p reg row) = true.
Proof.
  intros Hreg. unfold register_macro.
  assert (is_ok (for_each (register_term reg) row) = true)
    as [terms ->]%is_ok_true; [|done].
  apply for_each_total, Forall_forall. intros pin _.
  unfold register_term, register_field. set_unfold.
  destruct Hreg as [->|[->|[->|[->|[->|[]]]]]]; done.
Qed.

(** C9. The board declares one pin, [last], at [PA-1]. The position test has
    no lower bound, so the record keeps the number [-1] and is stored in the
    last place of row [A], position 15. The low register takes every record
    whose number is below 8: it gets nine terms, those of the positions 0 to
    7 and the one of position 15, and the high register gets the seven terms
    of the positions 8 to 14. *)
Theorem af_split_counts_negative_number_low :
  ∃ pins row,
    Pins_init catalog negative_board = Ok pins ∧
    iter_port pins "A" = Ok row ∧
    name <$> row
    = ["PIN0"; "PIN1"; "PIN2"; "PIN3"; "PIN4"; "PIN5"; "PIN6"; "PIN7";
       "PIN8"; "PIN9"; "PIN10"; "PIN11"; "PIN12"; "PIN13"; "PIN14"; "LAST"] ∧
    num <$> row = [0; 1; 2; 3; 4; 5; 6; 7; 8; 9; 10; 11; 12; 13; 14; -1] ∧
    afrl "A" row
    = "#define VAL_GPIOA_AFRL" +:+ Py.spaces 17 +:+ "("
      +:+ Py.join (" | " +:+ Py.backslash +:+ Py.nl +:+ Py.spaces 40)
            ["PIN_AFIO_AF(GPIOA_PIN0, 0U)"; "PIN_AFIO_AF(GPIOA_PIN1, 0U)";
             "PIN_AFIO_AF(GPIOA_PIN2, 0U)"; "PIN_AFIO_AF(GPIOA_PIN3, 0U)";
             "PIN_AFIO_AF(GPIOA_PIN4, 0U)"; "PIN_AFIO_AF(GPIOA_PIN5, 0U)";
             "PIN_AFIO_AF(GPIOA_PIN6, 0U)"; "PIN_AFIO_AF(GPIOA_PIN7, 0U)";
             "PIN_AFIO_AF(GPIOA_LAST, 5U)"]
      +:+ ")" +:+ Py.nl ∧
    afrh "A" row
    = "#define VAL_GPIOA_AFRH" +:+ Py.spaces 17 +:+ "("
      +:+ Py.join (" | " +:+ Py.backslash +:+ Py.nl +:+ Py.spaces 40)
            ["PIN_AFIO_AF(GPIOA_PIN8, 0U)"; "PIN_AFIO_AF(GPIOA_PIN9, 0U)";
             "PIN_AFIO_AF(GPIOA_PIN10, 0U)"; "PIN_AFIO_AF(GPIOA_PIN11, 0U)";
             "PIN_AFIO_AF(GPIOA_PIN12, 0U)"; "PIN_AFIO_AF(GPIOA_PIN13, 0U)";
             "PIN_AFIO_AF(GPIOA_PIN14, 0U)"]
      +:+ ")" +:+ Py.nl.
Proof.
  destruct (Pins_init catalog negative_board) as [pins|e] eqn:Hinit;
    [|by vm_compute in Hinit].
  destruct (iter_port pins "A") as [row|e] eqn:Hrow.
  - exists pins, row. split; [done|]. split; [done|].
    vm_compute in Hinit. injection Hinit as <-.
    vm_compute in Hrow. injection Hrow as <-.
    by vm_compute.
  - vm_compute in Hinit. injection Hinit as <-. by vm_compute in Hrow.
Qed.

(** X20. For a port of a built table whose records all have a number that
    is not negative, every record stands at its number, and [write_io_port]
    ends with the [AFRL] macro, the [AFRH] macro and a blank line: [AFRL]
    holds one [PIN_AFIO_AF] term for each of the first eight records of the
    row and [AFRH] one for each of the others, in the order of the row, each
    term with the port of the loop, the name and the alternate function of
    the record. *)
Theorem af_registers_by_position dir bd pins p row :
  Pins_init dir bd = Ok pins →
  iter_port pins p = Ok row →
  Forall (λ pin, 0 ≤ num pin) row →
  (∀ i pin, row !! i = Some pin → num pin = Z.of_nat i) ∧
  ∃ front,
    write_io_port pins p
    = Ok (front ++
          ["#define VAL_GPIO" +:+ p +:+ "_AFRL" +:+ Py.spaces 17 +:+ "("
           +:+ Py.join (" | " +:+ Py.backslash +:+ Py.nl +:+ Py.spaces 40)
                 ((λ pin, "PIN_AFIO_AF(GPIO" +:+ p +:+ "_" +:+ name pin
                          +:+ ", " +:+ Py.of_int (af pin) +:+ "U)")
                    <$> take 8 row)
           +:+ ")" +:+ Py.nl;
           "#define VAL_GPIO" +:+ p +:+ "_AFRH" +:+ Py.spaces 17 +:+ "("
           +:+ Py.join (" | " +:+ Py.backslash +:+ Py.nl +:+ Py.spaces 40)
                 ((λ pin, "PIN_AFIO_AF(GPIO" +:+ p +:+ "_" +:+ name pin
                          +:+ ", " +:+ Py.of_int (af pin) +:+ "U)")
                    <$> drop 8 row)
           +:+ ")" +:+ Py.nl;
           Py.nl]).
Proof.
  intros Hinit Hrow Hnn.
  assert (∀ i pin, row !! i = Some pin → num pin = Z.of_nat i) as Hidx.
  { intros i pin Hpin. unfold iter_port in Hrow.
    destruct (_pins pins !! Py.upper p) as [row'|] eqn:Hrow';
      simplify_eq/=.
    eapply built_row_indexed; [done..|].
    rewrite Forall_lookup in Hnn. by eapply Hnn. }
  split; [exact Hidx|].
  assert (is_ok (for_each (λ reg, register_macro p reg row)
                          ["MODE"; "OTYPE"; "OSPEED"; "PUPD"; "OD"]) = true)
    as [regs Hregs]%is_ok_true.
  { apply for_each_total, Forall_forall. intros reg Hreg.
    by apply register_macro_total. }
  exists ([port_comment p] ++ (pin_comment <$> row) ++ ["*/" +:+ Py.nl]
          ++ regs).
  unfold write_io_port. rewrite Hrow. cbn [mbind result_bind].
  rewrite Hregs. cbn [mbind result_bind]. rewrite <-!app_assoc.
  unfold afrl, afrh. destruct (indexed_row_split row Hidx) as [-> ->].
  reflexivity.
Qed.

Lemma board_built : Pins_init catalog board = Ok built.
Proof. by vm_compute. Qed.

Lemma af_registers_by_position_witness :
  ∃ row front,
    Pins_init catalog board = Ok built ∧
    iter_port built "B" = Ok row ∧
    Forall (λ pin, 0 ≤ num pin) row ∧
    name <$> take 8 row
    = ["PIN0"; "PIN1"; "PIN2"; "PIN3"; "PIN4"; "LED2"; "PIN6"; "PIN7"] ∧
    write_io_port built "B"
    = Ok (front ++
          ["#define VAL_GPIO" +:+ "B" +:+ "_AFRL" +:+ Py.spaces 17 +:+ "("
           +:+ Py.join (" | " +:+ Py.backslash +:+ Py.nl +:+ Py.spaces 40)
                 ((λ pin, "PIN_AFIO_AF(GPIO" +:+ "B" +:+ "_" +:+ name pin
                          +:+ ", " +:+ Py.of_int (af pin) +:+ "U)")
                    <$> take 8 row)
           +:+ ")" +:+ Py.nl;
           "#define VAL_GPIO" +:+ "B" +:+ "_AFRH" +:+ Py.spaces 17 +:+ "("
           +:+ Py.join (" | " +:+ Py.backslash +:+ Py.nl +:+ Py.spaces 40)
                 ((λ pin, "PIN_AFIO_AF(GPIO" +:+ "B" +:+ "_" +:+ name pin
                          +:+ ", " +:+ Py.of_int (af pin) +:+ "U)")
                    <$> drop 8 row)
           +:+ ")" +:+ Py.nl;
           Py.nl]).
Proof.
  assert (E : Pins_init catalog board = Ok built) by (by vm_compute).
  destruct (iter_port built "B") as [row|e] eqn:Hrow;
    [|by vm_compute in Hrow].
  assert (Hrow' : Ok row = iter_port built "B") by done.
  assert (Hnn : Forall (λ pin, 0 ≤ num pin) row).
  { vm_compute in Hrow'. injection Hrow' as ->.
    apply (bool_decide_unpack _). by vm_compute. }
  assert (Hnames : name <$> take 8 row
    = ["PIN0"; "PIN1"; "PIN2"; "PIN3"; "PIN4"; "LED2"; "PIN6"; "PIN7"]).
  { vm_compute in Hrow'. injection Hrow' as ->. reflexivity. }
  destruct (af_registers_by_position catalog board built "B" row E Hrow Hnn)
    as (_ & front & Hw).
  exists row, front. split; [exact E|]. split; [reflexivity|].
  split; [exact Hnn|]. split; [exact Hnames|exact Hw].
Defined.

(** *** The logical lines *)

(** A position that some declaration targets does not hold the record of a
    declaration that a differently named one has followed there. *)
Lemma built_cell_untargeted dir bd pins p i pin :
  Pins_init dir bd = Ok pins →
  cell (_pins pins) p i = Some pin →
  (∀ decl, decl ∈ bd_pins bd → declared (mcu pins) bd decl = Ok pin →
           False) →
  port pin = p ∧ num pin = Z.of_nat i.
Proof.
  intros Hinit Hcell Hnot.
  destruct (built_cell_origin _ _ _ _ _ _ Hinit Hcell)
    as [(default & _ & Hph & Hv)|(decl & Hin & Hdecl & _)].
  - by destruct (placeholder_Ok _ _ _ _ Hv Hph) as (_ & ? & ? & _).
  - by destruct (Hnot decl Hin Hdecl).
Qed.

Lemma index_of_nat n i : index_of n (Z.of_nat i) = i.
Proof. unfold index_of. rewrite bool_decide_eq_true_2 by lia. lia. Qed.









(** ** Further properties of the resolver *)

Lemma length_chars (s : string) : length (Py.chars s) = String.length s.
Proof. induction s; simpl; [done|]. by f_equal. Qed.

Lemma match_loop_bounds x pairs s :
  s - Z.of_nat (length pairs) ≤ match_loop x pairs s
  ≤ s + Z.of_nat (length pairs).
Proof.
  revert s. induction pairs as [|[tc xc] pairs IH]; intros s; simpl; [lia|].
  destruct (decide (tc = xc)); [specialize (IH (s + 1)); lia|].
  destruct (decide (x = "x")); [specialize (IH s)|specialize (IH (s - 1))];
    lia.
Qed.

Lemma match_loop_full x pairs s :
  match_loop x pairs s = s + Z.of_nat (length pairs)
  ↔ Forall (λ p, p.1 = p.2) pairs.
Proof.
  revert s. induction pairs as [|[tc xc] pairs IH]; intros s; simpl.
  - split; [constructor|lia].
  - rewrite Forall_cons. simpl. destruct (decide (tc = xc)) as [->|Hne].
    + rewrite <-(IH (s + 1)). split; [intros; split; [done|lia]|].
      intros [_ ?]. lia.
    + split; [|tauto]. intros H. exfalso.
      destruct (decide (x = "x")).
      * pose proof (match_loop_bounds x pairs s). lia.
      * pose proof (match_loop_bounds x pairs (s - 1)). lia.
Qed.

Lemma zip_all_equal {A} (l1 l2 : list A) :
  (length l1 ≤ length l2)%nat →
  Forall (λ p, p.1 = p.2) (zip l1 l2) ↔ l1 `prefix_of` l2.
Proof.
  revert l2. induction l1 as [|a l1 IH]; intros [|b l2]; simpl; intros Hlen.
  - split; [intros; apply prefix_nil|constructor].
  - split; [intros; apply prefix_nil|constructor].
  - lia.
  - rewrite Forall_cons, IH by lia. simpl. split.
    + intros [-> ?]. by apply prefix_cons.
    + intros H. split; [by eapply prefix_cons_inv_1|by eapply prefix_cons_inv_2].
Qed.

Lemma match_names_range (test x : string) :
  - Z.of_nat (String.length test `min` String.length x)
  ≤ _match_names test x
  ≤ Z.of_nat (String.length test `min` String.length x).
Proof.
  unfold _match_names.
  pose proof (match_loop_bounds x (zip (Py.chars test) (Py.chars x)) 0) as Hb.
  rewrite length_zip, !length_chars in Hb. lia.
Qed.

Lemma match_names_full (test x : string) :
  _match_names test x = Z.of_nat (String.length test)
  ↔ Py.chars test `prefix_of` Py.chars x.
Proof.
  unfold _match_names. split.
  - intros Hfull.
    pose proof (match_loop_bounds x (zip (Py.chars test) (Py.chars x)) 0)
      as Hb.
    rewrite length_zip, !length_chars in Hb.
    assert (String.length test ≤ String.length x)%nat as Hle by lia.
    apply zip_all_equal; [by rewrite !length_chars|].
    apply (match_loop_full x _ 0).
    rewrite length_zip, !length_chars. lia.
  - intros Hpre. pose proof (prefix_length _ _ Hpre) as Hle.
    rewrite !length_chars in Hle.
    apply zip_all_equal in Hpre; [|by rewrite !length_chars].
    apply (match_loop_full x _ 0) in Hpre.
    rewrite length_zip, !length_chars in Hpre. lia.
Qed.

(** X1. The score lies between minus and plus the length of the shorter
    string, and it equals the length of the request exactly when the
    request is a prefix of the pattern. *)
Theorem match_names_bounds (test x : string) :
  - Z.of_nat (String.length test `min` String.length x)
  ≤ _match_names test x
  ≤ Z.of_nat (String.length test `min` String.length x) ∧
  (_match_names test x = Z.of_nat (String.length test)
   ↔ Py.chars test `prefix_of` Py.chars x).
Proof. split; [apply match_names_range|apply match_names_full]. Qed.

(** X2. When the catalog holds the request itself and the request is not
    empty, a profile is found, and its pattern begins with the request. *)
Theorem exact_request_resolves (types : list string) (mcutype : string) :
  mcutype ∈ types → mcutype ≠ "" →
  ∃ choice,
    _choose_mcu_file types mcutype = Ok (choice +:+ ".yaml") ∧
    choice ∈ types ∧ Py.chars mcutype `prefix_of` Py.chars choice.
Proof.
  intros Hin Hne. unfold _choose_mcu_file.
  destruct (sorted_reverse (λ x, _match_names mcutype x) types)
    as [|choice s] eqn:Hs.
  { apply sorted_reverse_nil in Hs. subst. by apply elem_of_nil in Hin. }
  destruct (sorted_reverse_head (λ x, _match_names mcutype x) types choice)
    as (pre & post & -> & Hpre & Hpost); [by rewrite Hs|].
  assert (_match_names mcutype mcutype = Z.of_nat (String.length mcutype))
    as Hself by (by apply match_names_full).
  assert (0 < Z.of_nat (String.length mcutype)) as Hpos
    by (destruct mcutype; [done|simpl; lia]).
  assert (_match_names mcutype mcutype ≤ _match_names mcutype choice) as Hge.
  { apply elem_of_app in Hin as [Hin|[->|Hin]%elem_of_cons].
    - specialize (Hpre _ Hin). simpl in Hpre. lia.
    - lia.
    - by apply Hpost. }
  pose proof (match_names_range mcutype choice) as Hb.
  exists choice. simpl. split_and!.
  - rewrite (proj2 (Z.leb_gt _ _)); [done|lia].
  - apply elem_of_app. right. apply elem_of_cons. auto.
  - apply match_names_full. lia.
Qed.

Lemma exact_request_resolves_witness :
  "STM32F405" ∈ ["STM32F1xx"; "STM32F405"; "STM32F4xx"] ∧ "STM32F405" ≠ "" ∧
  ∃ choice,
    _choose_mcu_file ["STM32F1xx"; "STM32F405"; "STM32F4xx"] "STM32F405"
    = Ok (choice +:+ ".yaml") ∧
    choice ∈ ["STM32F1xx"; "STM32F405"; "STM32F4xx"] ∧
    Py.chars "STM32F405" `prefix_of` Py.chars choice.
Proof.
  assert (H1 : "STM32F405" ∈ ["STM32F1xx"; "STM32F405"; "STM32F4xx"])
    by (apply list_elem_of_In; simpl; auto).
  assert (H2 : "STM32F405" ≠ "") by done.
  split; [exact H1|]. split; [exact H2|].
  exact (exact_request_resolves _ _ H1 H2).
Defined.

Lemma str_app (l1 l2 : list ascii) :
  Py.str (l1 ++ l2) = Py.str l1 +:+ Py.str l2.
Proof. induction l1 as [|c l1 IH]; simpl; [done|]. by rewrite IH. Qed.

(** Stripping the suffix of a [.yaml] file name and putting it back gives
    the file name. *)
Lemma yaml_suffix_round_trip (fname : string) :
  Py.last_n 5 fname = ".yaml" → Py.but_last_n 5 fname +:+ ".yaml" = fname.
Proof.
  unfold Py.last_n, Py.but_last_n, Py.from, Py.upto. intros <-.
  by rewrite <-str_app, take_drop, str_chars.
Qed.

Lemma choose_mcu_file_Ok types mcutype fname :
  _choose_mcu_file types mcutype = Ok fname →
  ∃ choice, choice ∈ types ∧ 0 < score mcutype choice
            ∧ fname = choice +:+ ".yaml".
Proof.
  unfold _choose_mcu_file.
  destruct (sorted_reverse (λ x, _match_names mcutype x) types)
    as [|choice s] eqn:Hs; simpl; [done|].
  destruct (Z.leb_spec (_match_names mcutype choice) 0); [done|].
  intros [= <-]. exists choice. split_and!; try done.
  rewrite <-(sorted_reverse_perm (λ x, _match_names mcutype x) types), Hs.
  apply elem_of_cons. auto.
Qed.

Lemma mcu_types_file dir choice :
  choice ∈ _mcu_types dir → choice +:+ ".yaml" ∈ dir.*1.
Proof.
  unfold _mcu_types. intros (fname & -> & Hf)%list_elem_of_fmap.
  apply list_elem_of_filter in Hf as [Hyaml Hin].
  by rewrite yaml_suffix_round_trip.
Qed.

(** X3. The file that the resolver names is a file of the directory: when
    [MCU.__init__] succeeds it returns the profile stored under
    [<pattern>.yaml] for a pattern of positive score, and it never fails
    for a missing file. *)
Theorem MCU_init_reads_listed_file (dir : mcu_dir) (mcutype : string) :
  MCU_init dir mcutype ≠ Err KeyError ∧
  ∀ m, MCU_init dir mcutype = Ok m →
       ∃ choice, choice ∈ _mcu_types dir ∧ 0 < score mcutype choice
                 ∧ (choice +:+ ".yaml", m) ∈ dir.
Proof.
  unfold MCU_init.
  destruct (_choose_mcu_file (_mcu_types dir) mcutype) as [fname|e] eqn:Hf;
    simpl.
  - apply choose_mcu_file_Ok in Hf as (choice & Hin & Hpos & ->).
    pose proof (mcu_types_file _ _ Hin) as Hfile.
    apply list_elem_of_fmap in Hfile as ([fname m0] & Hname & Hdir).
    simpl in Hname.
    destruct (filter (λ f : string * MCU, f.1 = choice +:+ ".yaml") dir)
      as [|[fname' m'] rest] eqn:Hfilter.
    { assert ((fname, m0) ∈ filter (λ f : string * MCU,
                                     f.1 = choice +:+ ".yaml") dir) as H
        by (apply list_elem_of_filter; by split).
      rewrite Hfilter in H. by apply elem_of_nil in H. }
    simpl. split; [done|]. intros m [= <-]. exists choice. split_and!; try done.
    assert ((fname', m') ∈ filter (λ f : string * MCU,
                                    f.1 = choice +:+ ".yaml") dir) as H
      by (rewrite Hfilter; apply elem_of_cons; auto).
    apply list_elem_of_filter in H as [Hn ?]. simpl in Hn. by subst.
  - split; [|done]. unfold _choose_mcu_file in Hf.
    destruct (sorted_reverse _ _) as [|choice s]; simpl in Hf.
    + by injection Hf as <-.
    + destruct (_ <=? 0); [by injection Hf as <-|done].
Qed.

Lemma MCU_init_reads_listed_file_witness :
  MCU_init catalog "STM32F405" = Ok stm32f4 ∧
  ∃ choice, choice ∈ _mcu_types catalog ∧ 0 < score "STM32F405" choice
            ∧ (choice +:+ ".yaml", stm32f4) ∈ catalog.
Proof.
  assert (H : MCU_init catalog "STM32F405" = Ok stm32f4) by reflexivity.
  split; [exact H|].
  exact (proj2 (MCU_init_reads_listed_file catalog "STM32F405") stm32f4 H).
Defined.

(** ** Further properties of the attribute parser *)

(** X4. A string parses as the board default exactly when it parses as a
    pin string, gives the five attributes and gives no position. *)
Theorem default_check_iff mcu s d raw :
  _parse_data_str mcu s true = Ok (d, raw) ↔
  _parse_data_str mcu s false = Ok (d, raw) ∧
  is_Some (d_mode d) ∧ is_Some (d_od d) ∧ is_Some (d_otype d) ∧
  is_Some (d_ospeed d) ∧ is_Some (d_pupd d) ∧ d_port d = None.
Proof.
  unfold _parse_data_str.
  destruct (parse_loop mcu s (Py.split "," s) (empty_dict, []))
    as [[pin raw']|e]; simpl; [|split; [done|by intros [? _]]].
  unfold _default_check_data. split.
  - destruct (d_mode pin) eqn:?, (d_od pin) eqn:?, (d_otype pin) eqn:?,
      (d_ospeed pin) eqn:?, (d_pupd pin) eqn:?, (d_port pin) eqn:?;
      simpl; try done.
    intros [= <- <-]. split_and!; eauto.
  - intros ([= -> ->] & [? ->] & [? ->] & [? ->] & [? ->] & [? ->] & ->).
    done.
Qed.

Lemma default_check_iff_witness :
  _parse_data_str stm32f4 board_default false
  = Ok (mkPinDict None None None (Some "OUTPUT") (Some "LOW")
                  (Some "PUSHPULL") (Some "HIGH") (Some "FLOATING")
                  (Some 0) None,
        ["OUTPUT"; "STARTLOW"; "PUSHPULL"; "HIGHSPEED"; "FLOATING"]) ∧
  _parse_data_str stm32f4 board_default true
  = Ok (mkPinDict None None None (Some "OUTPUT") (Some "LOW")
                  (Some "PUSHPULL") (Some "HIGH") (Some "FLOATING")
                  (Some 0) None,
        ["OUTPUT"; "STARTLOW"; "PUSHPULL"; "HIGHSPEED"; "FLOATING"]).
Proof.
  assert (H : _parse_data_str stm32f4 board_default false
    = Ok (mkPinDict None None None (Some "OUTPUT") (Some "LOW")
                  (Some "PUSHPULL") (Some "HIGH") (Some "FLOATING")
                  (Some 0) None,
        ["OUTPUT"; "STARTLOW"; "PUSHPULL"; "HIGHSPEED"; "FLOATING"]))
    by reflexivity.
  split; [exact H|].
  apply (proj2 (default_check_iff stm32f4 board_default _ _)).
  split; [exact H|]. simpl. split_and!; eauto.
Defined.

(** The guard turns down every keyword of the other families. *)
Lemma plain_keyword_guard mcu elm :
  elm ∈ plain_keywords → position_guard mcu elm ≠ Ok true.
Proof.
  unfold plain_keywords. intros Hin.
  repeat (apply elem_of_cons in Hin as [->|Hin]);
    try (by apply elem_of_nil in Hin);
    try (by rewrite guard_no_P);
    rewrite guard_P; case_decide; done.
Qed.

Lemma accepted_guard mcu pin elm pin' r :
  accepted mcu pin elm pin' r → position_guard mcu elm = Ok (negb r).
Proof. by destruct 1. Qed.

(** A token of a family that is not in another family's list. *)
Ltac other_family :=
  match goal with
  | H1 : ?elm ∈ _, H2 : ?elm ∈ _ |- _ =>
      exfalso; clear -H1 H2; set_unfold;
      repeat match goal with H : _ ∨ _ |- _ => destruct H end;
      subst; try done; discriminate
  | H1 : ?elm ∉ plain_keywords, H2 : ?elm ∈ _ |- _ =>
      exfalso; apply H1; clear -H2; unfold plain_keywords; set_unfold; tauto
  | H1 : position_guard ?mcu ?elm = Ok true, H2 : ?elm ∈ _ |- _ =>
      exfalso; apply (plain_keyword_guard mcu elm); [|exact H1];
      clear -H2; unfold plain_keywords; set_unfold; tauto
  end.

(** What one accepted token does to the four attributes that a later
    token may overwrite. *)
Lemma accepted_fields mcu pin elm pin' r :
  accepted mcu pin elm pin' r →
  d_od pin' = (if decide (elm ∈ ["STARTLOW"; "STARTHIGH"])
               then Some (Py.from 5 elm) else d_od pin) ∧
  d_otype pin' = (if decide (elm ∈ ["PUSHPULL"; "OPENDRAIN"])
                  then Some elm else d_otype pin) ∧
  d_ospeed pin' = (if decide (elm ∈ ["VERYLOWSPEED"; "LOWSPEED";
                                     "MEDIUMSPEED"; "HIGHSPEED"])
                   then Some (Py.but_last_n 5 elm) else d_ospeed pin) ∧
  d_pupd pin' = (if decide (elm ∈ ["FLOATING"; "PULLUP"; "PULLDOWN"])
                 then Some elm else d_pupd pin).
Proof.
  destruct 1; simpl; split_and!; case_decide; try done; other_family.
Qed.

Lemma last_filter_cons {A} (P : A → Prop) `{!∀ x, Decision (P x)} x l :
  last (filter P (x :: l))
  = match last (filter P l) with
    | Some y => Some y
    | None => if decide (P x) then Some x else None
    end.
Proof.
  rewrite filter_cons. destruct (decide (P x)); [|by destruct (last _)].
  destruct (filter P l) as [|y l'] eqn:E; [done|].
  rewrite last_cons. by destruct (last (y :: l')) eqn:E'.
Qed.

(** A key that each token of a family sets, and no other token touches,
    ends with the value of the last such token. *)
Lemma parse_loop_last_token {A} (get : PinDict → option A)
    (P : string → Prop) `{!∀ x, Decision (P x)} (val : string → A)
    mcu pin_data pieces st st' :
  (∀ pin elm pin' r, accepted mcu pin elm pin' r →
     get pin' = if decide (P elm) then Some (val elm) else get pin) →
  parse_loop mcu pin_data pieces st = Ok st' →
  get st'.1
  = match last (filter P (normalize <$> pieces)) with
    | Some elm => Some (val elm)
    | None => get st.1
    end.
Proof.
  intros Hstep. revert st. induction pieces as [|piece pieces IH]; intros st.
  - by intros [= <-].
  - cbn [parse_loop]. intros (st1 & H1 & H2)%bind_Ok.
    rewrite fmap_cons, last_filter_cons, (IH _ H2).
    destruct (last (filter P (normalize <$> pieces))); [done|].
    destruct st as [pin raw], st1 as [pin1 raw1].
    apply parse_elm_Ok in H1 as (r & Hacc & _). simpl.
    rewrite (Hstep _ _ _ _ Hacc). by destruct (decide (P (normalize piece))).
Qed.

(** X5. Within one attribute string a later keyword of the initial-level,
    output-type, speed or pull family silently replaces an earlier one:
    the value kept is that of the last keyword of the family, and the key
    is absent when the string has none. *)
Theorem last_keyword_of_family_wins mcu s default d raw :
  _parse_data_str mcu s default = Ok (d, raw) →
  d_od d = Py.from 5 <$> last (filter (.∈ ["STARTLOW"; "STARTHIGH"])
                                      (tokens s)) ∧
  d_otype d = last (filter (.∈ ["PUSHPULL"; "OPENDRAIN"]) (tokens s)) ∧
  d_ospeed d
  = Py.but_last_n 5 <$> last (filter (.∈ ["VERYLOWSPEED"; "LOWSPEED";
                                          "MEDIUMSPEED"; "HIGHSPEED"])
                                     (tokens s)) ∧
  d_pupd d = last (filter (.∈ ["FLOATING"; "PULLUP"; "PULLDOWN"]) (tokens s)).
Proof.
  unfold _parse_data_str, tokens. intros ([pin raw'] & Hloop & H)%bind_Ok.
  apply bind_Ok in H as (_ & _ & [= -> ->]). split_and!.
  - pose proof (parse_loop_last_token d_od (.∈ ["STARTLOW"; "STARTHIGH"])
               (Py.from 5) _ _ _ _ _ (λ pin elm pin' r H,
                 proj1 (accepted_fields _ _ _ _ _ H)) Hloop) as Hl.
    simpl in Hl. rewrite Hl. by destruct (last _).
  - pose proof (parse_loop_last_token d_otype (.∈ ["PUSHPULL"; "OPENDRAIN"])
               id _ _ _ _ _ (λ pin elm pin' r H,
                 proj1 (proj2 (accepted_fields _ _ _ _ _ H))) Hloop) as Hl.
    simpl in Hl. rewrite Hl. by destruct (last _).
  - pose proof (parse_loop_last_token d_ospeed
               (.∈ ["VERYLOWSPEED"; "LOWSPEED"; "MEDIUMSPEED"; "HIGHSPEED"])
               (Py.but_last_n 5) _ _ _ _ _ (λ pin elm pin' r H,
                 proj1 (proj2 (proj2 (accepted_fields _ _ _ _ _ H)))) Hloop) as Hl.
    simpl in Hl. rewrite Hl. by destruct (last _).
  - pose proof (parse_loop_last_token d_pupd
               (.∈ ["FLOATING"; "PULLUP"; "PULLDOWN"])
               id _ _ _ _ _ (λ pin elm pin' r H,
                 proj2 (proj2 (proj2 (accepted_fields _ _ _ _ _ H)))) Hloop) as Hl.
    simpl in Hl. rewrite Hl. by destruct (last _).
Qed.

Lemma last_keyword_of_family_wins_witness :
  is_ok (_parse_data_str stm32f4 "PULLUP, startlow, PULLDOWN, STARTHIGH"
                         false) = true ∧
  ∃ d raw,
    _parse_data_str stm32f4 "PULLUP, startlow, PULLDOWN, STARTHIGH" false
    = Ok (d, raw) ∧
    d_od d = Some "HIGH" ∧ d_pupd d = Some "PULLDOWN" ∧ d_otype d = None.
Proof.
  split; [reflexivity|].
  destruct (_parse_data_str stm32f4 "PULLUP, startlow, PULLDOWN, STARTHIGH"
                            false) as [[d raw]|e] eqn:E;
    [|by vm_compute in E].
  exists d, raw. split; [done|].
  destruct (last_keyword_of_family_wins _ _ _ _ _ E)
    as (-> & -> & _ & ->).
  by vm_compute.
Defined.

(** X6. The list returned beside the attributes holds the normalized
    tokens that are not position tokens, in the order of the string. *)
Theorem raw_is_the_non_position_tokens mcu s default d raw :
  _parse_data_str mcu s default = Ok (d, raw) →
  raw = filter (λ elm, position_guard mcu elm ≠ Ok true) (tokens s).
Proof.
  unfold _parse_data_str, tokens. intros ([pin raw'] & Hloop & H)%bind_Ok.
  apply bind_Ok in H as (_ & _ & [= -> ->]).
  assert (∀ pieces st st',
            parse_loop mcu s pieces st = Ok st' →
            st'.2 = st.2 ++ filter (λ elm, position_guard mcu elm ≠ Ok true)
                                   (normalize <$> pieces)) as Hgen.
  { induction pieces as [|piece pieces IH]; intros st st'.
    - intros [= <-]. by rewrite app_nil_r.
    - cbn [parse_loop]. intros (st1 & H1 & H2)%bind_Ok.
      rewrite fmap_cons, (IH _ _ H2).
      destruct st as [pin0 raw0], st1 as [pin1 raw1].
      apply parse_elm_Ok in H1 as (r & Hacc & ->). simpl.
      apply accepted_guard in Hacc. rewrite filter_cons.
      destruct r; simpl in Hacc; rewrite Hacc.
      + rewrite decide_True by done. by rewrite <-app_assoc.
      + by rewrite decide_False by (intros H; by apply H). }
  apply (Hgen _ _ _ Hloop).
Qed.

Lemma raw_is_the_non_position_tokens_witness :
  ∃ d raw,
    _parse_data_str stm32f4 "PB5, output, pullup" false = Ok (d, raw) ∧
    raw = ["OUTPUT"; "PULLUP"].
Proof.
  destruct (_parse_data_str stm32f4 "PB5, output, pullup" false)
    as [[d raw]|e] eqn:E; [|by vm_compute in E].
  exists d, raw. split; [done|].
  rewrite (raw_is_the_non_position_tokens _ _ _ _ _ E). by vm_compute.
Defined.

Lemma guard_true_inv mcu elm :
  position_guard mcu elm = Ok true →
  ∃ p n, Py.getitem elm 1 = Ok p ∧ p ∈ ports mcu ∧ String.length p = 1%nat
         ∧ Py.int (Py.from 2 elm) = Ok n ∧ n < Z.of_nat (pins_per_port mcu).
Proof.
  unfold position_guard.
  destruct (Py.getitem elm 0) as [c0|]; simpl; [|done].
  destruct (decide (c0 = "P")); [|done].
  destruct (Py.getitem elm 1) as [p|] eqn:Hp; simpl; [|done].
  destruct (decide (p ∈ ports mcu)); [|done].
  destruct (Py.int (Py.from 2 elm)) as [n|]; simpl; [|done].
  intros [= Hlt%bool_decide_eq_true]. exists p, n. split_and!; try done.
  unfold Py.getitem in Hp. destruct (String.get 1 elm); by simplify_eq.
Qed.

(** What one accepted token does to the position. *)
Lemma accepted_position mcu pin elm pin' r :
  accepted mcu pin elm pin' r →
  if r then d_port pin' = d_port pin ∧ d_num pin' = d_num pin
  else ∃ p n, d_port pin' = Some p ∧ d_num pin' = Some n ∧ p ∈ ports mcu
              ∧ String.length p = 1%nat ∧ n < Z.of_nat (pins_per_port mcu).
Proof.
  destruct 1 as [p i Hg Hp Hi| | | | | |]; simpl; try done.
  destruct (guard_true_inv _ _ Hg) as (p' & n & Hp' & ? & ? & Hn & ?).
  exists p, i. split_and!; try done; congruence.
Qed.

Lemma parse_data_str_position mcu s default d raw :
  _parse_data_str mcu s default = Ok (d, raw) →
  (d_port d = None
   ↔ Forall (λ elm, position_guard mcu elm ≠ Ok true) (tokens s)) ∧
  (∀ p, d_port d = Some p →
     p ∈ ports mcu ∧ String.length p = 1%nat ∧
     ∃ n, d_num d = Some n ∧ n < Z.of_nat (pins_per_port mcu)).
Proof.
  unfold _parse_data_str, tokens. intros ([pin raw'] & Hloop & H)%bind_Ok.
  apply bind_Ok in H as (_ & _ & [= -> ->]).
  assert (∀ pieces st st',
    parse_loop mcu s pieces st = Ok st' →
    (d_port st'.1 = None
     ↔ d_port st.1 = None
       ∧ Forall (λ elm, position_guard mcu elm ≠ Ok true)
                (normalize <$> pieces)) ∧
    ((∀ p, d_port st.1 = Some p →
        p ∈ ports mcu ∧ String.length p = 1%nat ∧
        ∃ n, d_num st.1 = Some n ∧ n < Z.of_nat (pins_per_port mcu)) →
     ∀ p, d_port st'.1 = Some p →
        p ∈ ports mcu ∧ String.length p = 1%nat ∧
        ∃ n, d_num st'.1 = Some n ∧ n < Z.of_nat (pins_per_port mcu)))
    as Hgen.
  { induction pieces as [|piece pieces IH]; intros st st'.
    - intros [= <-]. split; [|done]. rewrite fmap_nil.
      split; [by split|by intros [? _]].
    - cbn [parse_loop]. intros (st1 & H1 & H2)%bind_Ok.
      destruct (IH _ _ H2) as [Hnone Hsome]. rewrite fmap_cons, Forall_cons.
      destruct st as [pin0 raw0], st1 as [pin1 raw1].
      apply parse_elm_Ok in H1 as (r & Hacc & _). simpl in *.
      pose proof (accepted_guard _ _ _ _ _ Hacc) as Hg.
      pose proof (accepted_position _ _ _ _ _ Hacc) as Hpos.
      destruct r; simpl in Hg.
      + destruct Hpos as [Hp Hn]. rewrite Hp, Hn in *. split.
        * rewrite Hnone, Hg. split; [intros [? ?]|intros (? & _ & ?)];
            split_and!; done.
        * done.
      + destruct Hpos as (p & n & Hp & Hn & Hin & Hlen & Hlt). split.
        * rewrite Hnone, Hp, Hg. split; [by intros [? _]|].
          intros (_ & Hne & _). by destruct Hne.
        * intros _. apply Hsome. intros p' Hp'.
          assert (p' = p) as -> by congruence. eauto. }
  destruct (Hgen _ _ _ Hloop) as [Hnone Hsome]. simpl in *. split.
  - rewrite Hnone. split; [by intros [_ ?]|done].
  - by apply Hsome.
Qed.

(** X7. The position that a string gives is inside the profile: the port
    is one of its ports, a single character, and the number is below
    [pins_per_port]. The string gives no position exactly when none of
    its tokens passes the position test. *)
Theorem parsed_position_is_in_profile mcu s default d raw :
  _parse_data_str mcu s default = Ok (d, raw) →
  (d_port d = None
   ↔ Forall (λ elm, position_guard mcu elm ≠ Ok true) (tokens s)) ∧
  (∀ p, d_port d = Some p →
     p ∈ ports mcu ∧ String.length p = 1%nat ∧
     ∃ n, d_num d = Some n ∧ n < Z.of_nat (pins_per_port mcu)).
Proof. apply parse_data_str_position. Qed.

Lemma parsed_position_is_in_profile_witness :
  ∃ d raw,
    _parse_data_str stm32f4 "pb5, AF7" false = Ok (d, raw) ∧
    d_port d = Some "B" ∧
    "B" ∈ ports stm32f4 ∧ ∃ n, d_num d = Some n ∧ n < 16.
Proof.
  destruct (_parse_data_str stm32f4 "pb5, AF7" false) as [[d raw]|e] eqn:E;
    [|by vm_compute in E].
  assert (Hp : d_port d = Some "B").
  { assert (Ok (d, raw) = _parse_data_str stm32f4 "pb5, AF7" false) as E'
      by done.
    vm_compute in E'. by injection E' as -> ->. }
  exists d, raw. split; [done|]. split; [exact Hp|].
  destruct (proj2 (parsed_position_is_in_profile _ _ _ _ _ E) "B" Hp)
    as (Hin & _ & Hn).
  split; [exact Hin|exact Hn].
Defined.

(** ** Further properties of the table builder *)

(** X8. Over a checked default, a declaration gives a record exactly when
    its attribute string parses and holds a position token. *)
Theorem record_iff_parsed_with_position mcu s0 default raw0 n s :
  _parse_data_str mcu s0 true = Ok (default, raw0) →
  is_ok (_parse_pin_data mcu n s default) = true
  ↔ ∃ data raw, _parse_data_str mcu s false = Ok (data, raw)
                ∧ is_Some (d_port data).
Proof.
  intros Hdef.
  pose proof (parse_data_str_valid _ _ _ _ _ Hdef) as Hvd.
  destruct (default_complete _ _ _ _ Hdef)
    as ([m Hm] & [o Ho] & [t Ht] & [sp Hs] & [pu Hp] & Hport).
  destruct (proj1 Hvd _ Hm) as (_ & a & Ha & _).
  unfold _parse_pin_data.
  destruct (_parse_data_str mcu s false) as [[data raw]|e] eqn:Hparse;
    simpl; [|split; [done|by intros (? & ? & ? & _)]].
  pose proof (parse_data_str_valid _ _ _ _ _ Hparse) as Hv.
  split.
  - intros [pin Hpin]%is_ok_true. exists data, raw. split; [done|].
    apply Pin_Ok in Hpin as (_ & Hpp & _). simpl in Hpp.
    rewrite upd_None_l, Hport in Hpp. destruct (d_port data); by eauto.
  - intros (data' & raw' & [= <- <-] & [p Hpp]).
    destruct Hv as (_ & _ & _ & _ & _ & _ & Hpn & _ & _).
    destruct (d_num data) as [i|] eqn:Hi;
      [|by rewrite (proj2 Hpn eq_refl) in Hpp].
    unfold _Pin. simpl. rewrite !upd_None_l, Hpp, Hi, Hm, Ho, Ht, Hs, Hp, Ha.
    simpl. by repeat (match goal with |- context [upd _ ?o] =>
                                        destruct o; simpl end).
Qed.

Lemma record_iff_parsed_with_position_witness :
  _parse_data_str stm32f4 board_default true
  = Ok (mkPinDict None None None (Some "OUTPUT") (Some "LOW")
                  (Some "PUSHPULL") (Some "HIGH") (Some "FLOATING")
                  (Some 0) None,
        ["OUTPUT"; "STARTLOW"; "PUSHPULL"; "HIGHSPEED"; "FLOATING"]) ∧
  (∃ data raw, _parse_data_str stm32f4 "PA3, INPUT" false = Ok (data, raw)
               ∧ is_Some (d_port data)) ∧
  is_ok (_parse_pin_data stm32f4 "btn" "PA3, INPUT"
           (mkPinDict None None None (Some "OUTPUT") (Some "LOW")
                      (Some "PUSHPULL") (Some "HIGH") (Some "FLOATING")
                      (Some 0) None)) = true.
Proof.
  assert (H0 : _parse_data_str stm32f4 board_default true
    = Ok (mkPinDict None None None (Some "OUTPUT") (Some "LOW")
                  (Some "PUSHPULL") (Some "HIGH") (Some "FLOATING")
                  (Some 0) None,
        ["OUTPUT"; "STARTLOW"; "PUSHPULL"; "HIGHSPEED"; "FLOATING"]))
    by reflexivity.
  assert (H1 : ∃ data raw,
             _parse_data_str stm32f4 "PA3, INPUT" false = Ok (data, raw)
             ∧ is_Some (d_port data)).
  { eexists _, _. split; [reflexivity|]. simpl. eauto. }
  split; [exact H0|]. split; [exact H1|].
  exact (proj2 (record_iff_parsed_with_position _ _ _ _ "btn" "PA3, INPUT" H0)
               H1).
Defined.

(** X9. The record of a declaration takes each attribute from the pin's
    own string when the string gives it and from the board default
    otherwise; the position always comes from the pin's string, the name is
    the declared name in upper case, and [raw] lists the pin's keywords in
    lower case. *)
Theorem pin_string_overrides_default
    mcu s0 default raw0 n s data kws pin :
  _parse_data_str mcu s0 true = Ok (default, raw0) →
  _parse_data_str mcu s false = Ok (data, kws) →
  _parse_pin_data mcu n s default = Ok pin →
  name pin = Py.upper n ∧
  raw pin = Py.lower (Py.join ", " kws) ∧
  d_port data = Some (port pin) ∧ d_num data = Some (num pin) ∧
  upd (d_mode default) (d_mode data) = Some (mode pin) ∧
  upd (d_af default) (d_af data) = Some (af pin) ∧
  upd (d_od default) (d_od data) = Some (od pin) ∧
  upd (d_otype default) (d_otype data) = Some (otype pin) ∧
  upd (d_ospeed default) (d_ospeed data) = Some (ospeed pin) ∧
  upd (d_pupd default) (d_pupd data) = Some (pupd pin).
Proof.
  intros Hdef Hparse. unfold _parse_pin_data. rewrite Hparse. simpl.
  intros Hpin%Pin_Ok. simpl in Hpin. rewrite !upd_None_l in Hpin.
  pose proof (parse_data_str_valid _ _ _ _ _ Hdef)
    as (_ & _ & _ & _ & _ & _ & Hpn0 & Hn0 & _).
  pose proof (parse_data_str_valid _ _ _ _ _ Hparse)
    as (_ & _ & _ & _ & _ & _ & _ & Hn & _).
  destruct (default_complete _ _ _ _ Hdef) as (_ & _ & _ & _ & _ & Hport).
  rewrite Hn0, Hn, Hport, (proj1 Hpn0 Hport) in Hpin. simpl in Hpin.
  rewrite !upd_None_l in Hpin.
  destruct Hpin as ([= <-] & ? & ? & ? & ? & ? & ? & ? & ? & [= <-]).
  by split_and!.
Qed.

Lemma pin_string_overrides_default_witness :
  ∃ default raw0 data kws pin,
    _parse_data_str stm32f4 board_default true = Ok (default, raw0) ∧
    _parse_data_str stm32f4 "PB5, startHigh, af7" false = Ok (data, kws) ∧
    _parse_pin_data stm32f4 "led" "PB5, startHigh, af7" default = Ok pin ∧
    name pin = "LED" ∧ raw pin = "starthigh, af7" ∧
    (od pin, mode pin, af pin, pupd pin)
    = ("HIGH", "ALTERNATE", 7, "FLOATING").
Proof.
  destruct (_parse_data_str stm32f4 board_default true)
    as [[default raw0]|e] eqn:E0; [|by vm_compute in E0].
  destruct (_parse_data_str stm32f4 "PB5, startHigh, af7" false)
    as [[data kws]|e] eqn:E1; [|by vm_compute in E1].
  assert (E0' : Ok (default, raw0)
                = _parse_data_str stm32f4 board_default true) by done.
  assert (E1' : Ok (data, kws)
                = _parse_data_str stm32f4 "PB5, startHigh, af7" false)
    by done.
  vm_compute in E0', E1'. injection E0' as Hd Hr0. injection E1' as Hda Hra.
  destruct (_parse_pin_data stm32f4 "led" "PB5, startHigh, af7" default)
    as [pin|e] eqn:E2; [|by rewrite Hd in E2; vm_compute in E2].
  exists default, raw0, data, kws, pin. split; [done|]. split; [done|].
  split; [done|].
  destruct (pin_string_overrides_default _ _ _ _ _ _ _ _ _ E0 E1 E2)
    as (Hn & Hraw & _ & _ & Hm & Ha & Ho & _ & _ & Hp).
  rewrite Hn, Hraw. rewrite Hd, Hda in Hm, Ha, Ho, Hp. rewrite Hra.
  simpl in Hm, Ha, Ho, Hp.
  injection Hm as <-. injection Ha as <-. injection Ho as <-.
  injection Hp as <-. by vm_compute.
Defined.

(** The record of a declaration lies inside the profile. *)
Lemma parse_pin_data_position mcu s0 default raw0 n s pin :
  _parse_data_str mcu s0 true = Ok (default, raw0) →
  _parse_pin_data mcu n s default = Ok pin →
  port pin ∈ ports mcu ∧ num pin < Z.of_nat (pins_per_port mcu).
Proof.
  intros Hdef. unfold _parse_pin_data.
  intros ([data kws] & Hparse & Hpin%Pin_Ok)%bind_Ok.
  simpl in Hpin. rewrite !upd_None_l in Hpin.
  pose proof (parse_data_str_valid _ _ _ _ _ Hdef)
    as (_ & _ & _ & _ & _ & _ & Hpn0 & _).
  destruct (default_complete _ _ _ _ Hdef) as (_ & _ & _ & _ & _ & Hport).
  rewrite Hport, (proj1 Hpn0 Hport) in Hpin. simpl in Hpin.
  rewrite !upd_None_l in Hpin. destruct Hpin as (_ & Hp & Hn & _).
  destruct (proj2 (parse_data_str_position _ _ _ _ _ Hparse) _ Hp)
    as (Hin & _ & i & Hi & Hlt).
  split; [done|]. congruence.
Qed.

Lemma built_shape dir bd pins :
  Pins_init dir bd = Ok pins →
  dom (_pins pins) = list_to_set (ports (mcu pins)) ∧
  rows_of_length (pins_per_port (mcu pins)) (_pins pins).
Proof.
  intros (default & raw0 & tbl0 & Hm & Hdef & Hdef' & Htbl0 & Hrun)%Pins_init_Ok.
  pose proof (default_table_rows _ _ _ Htbl0) as Hrows0.
  destruct (declare_pins_shape _ _ _ _ _ _ _ Hrows0 Hrun) as [Hrows Hdom].
  by rewrite (default_table_dom _ _ _ Htbl0) in Hdom.
Qed.

(** X10. The index by name has exactly the declared names, in upper case,
    as its keys: [pin_by_name] returns for such a name a record of a
    declaration that carries the name, and raises [KeyError] for any other
    name. *)
Theorem by_name_holds_the_declared_names dir bd pins :
  Pins_init dir bd = Ok pins →
  dom (_pins_by_name pins) = list_to_set (Py.upper <$> (bd_pins bd).*1) ∧
  (∀ n pin, pin_by_name pins n = Ok pin →
     name pin = n
     ∧ ∃ decl, decl ∈ bd_pins bd ∧ declared (mcu pins) bd decl = Ok pin) ∧
  (∀ n, n ∉ Py.upper <$> (bd_pins bd).*1 → pin_by_name pins n = Err KeyError).
Proof.
  intros (default & raw0 & tbl0 & Hm & Hdef & Hdef' & Htbl0 & Hrun)%Pins_init_Ok.
  pose proof (parse_data_str_valid _ _ _ _ _ Hdef) as Hv.
  destruct (declare_pins_names _ _ _ _ _ _ _ Hv Hrun) as (Hin & _ & Horigin).
  assert (∀ n, is_Some (_pins_by_name pins !! n)
               ↔ n ∈ Py.upper <$> (bd_pins bd).*1) as Hkeys.
  { intros n. split.
    - intros [pin [Hk|(decl & Hd & _ & -> & _)]%Horigin];
        [by rewrite lookup_empty in Hk|].
      apply list_elem_of_fmap. exists decl.1. split; [done|].
      apply list_elem_of_fmap. by exists decl.
    - intros (n0 & -> & (decl & -> & Hd)%list_elem_of_fmap)%list_elem_of_fmap.
      by apply Hin. }
  split_and!.
  - apply set_eq. intros n.
    by rewrite elem_of_dom, elem_of_list_to_set, Hkeys.
  - intros n pin. unfold pin_by_name.
    destruct (_pins_by_name pins !! n) as [pin'|] eqn:Hn; simpl; [|done].
    intros [= ->].
    destruct (Horigin _ _ Hn) as [Hk|(decl & Hd & Hpin & _ & Hname)];
      [by rewrite lookup_empty in Hk|].
    split; [done|]. exists decl. split; [done|].
    unfold declared. by rewrite Hdef'.
  - intros n Hn. unfold pin_by_name.
    destruct (_pins_by_name pins !! n) as [pin'|] eqn:Hl; [|done].
    destruct Hn. apply Hkeys. eauto.
Qed.

Lemma by_name_holds_the_declared_names_witness :
  Pins_init catalog board = Ok built ∧
  dom (_pins_by_name built) = list_to_set ["LED1"; "BTN"; "LED2"] ∧
  pin_by_name built "led1" = Err KeyError.
Proof.
  assert (E : Pins_init catalog board = Ok built) by (by vm_compute).
  destruct (by_name_holds_the_declared_names catalog board built E)
    as (Hdom & _ & Hout).
  split; [exact E|]. split; [exact Hdom|].
  apply Hout. apply (bool_decide_unpack _). by vm_compute.
Defined.

Lemma list_setitem_is_ok {A} (l : list A) i v :
  is_ok (list_setitem l i v) = true
  ↔ - Z.of_nat (length l) ≤ i < Z.of_nat (length l).
Proof.
  unfold list_setitem. repeat case_bool_decide; simpl; split; try done; lia.
Qed.

Lemma list_getitem_index {A} (l : list A) i :
  - Z.of_nat (length l) ≤ i < Z.of_nat (length l) →
  list_getitem l i = of_option IndexError (l !! index_of (length l) i).
Proof.
  intros Hi. unfold list_getitem, index_of.
  repeat case_bool_decide; try done; lia.
Qed.

(** Every declaration of a build that succeeds has a record whose number
    is a valid list index of a row. *)
Lemma declare_pins_range mcu default decls tbl bn tbl' bn' :
  rows_of_length (pins_per_port mcu) tbl →
  declare_pins mcu default decls (tbl, bn) = Ok (tbl', bn') →
  Forall (λ decl, ∃ pin,
            _parse_pin_data mcu decl.1 decl.2 default = Ok pin
            ∧ - Z.of_nat (pins_per_port mcu) ≤ num pin
              < Z.of_nat (pins_per_port mcu)) decls.
Proof.
  revert tbl bn. induction decls as [|d decls IH]; intros tbl bn Hrows;
    [constructor|].
  cbn [declare_pins]. intros ([tbl1 bn1] & Hstep & Hrest)%bind_Ok.
  pose proof Hstep as Hstep'. unfold declare_pin in Hstep'.
  apply bind_Ok in Hstep' as (pin & Hpin & H).
  apply bind_Ok in H as (row & Hrow & H).
  apply bind_Ok in H as (row' & Hset & _).
  destruct (tbl !! port pin) as [row0|] eqn:Hlook; simplify_eq/=.
  assert (is_ok (list_setitem row (num pin) pin) = true) as Hok
    by (by rewrite Hset).
  apply list_setitem_is_ok in Hok. rewrite (Hrows _ _ Hlook) in Hok.
  destruct (declare_pin_cell _ _ _ _ _ _ _ _ Hrows Hstep Hpin)
    as (Hrows1 & _).
  constructor; [by exists pin|by eapply IH].
Qed.

(** X11. In a built table every record carries the port of its row. When
    that port is its own upper-case form, [pin_by_port] finds the record
    again at its port and number, also when the number is negative. When
    the upper-case form of the port is no port of the profile,
    [pin_by_port] raises [KeyError] for this port, whatever the number. *)
Theorem stored_record_found_at_its_number dir bd pins p i pin :
  Pins_init dir bd = Ok pins →
  cell (_pins pins) p i = Some pin →
  port pin = p ∧
  (Py.upper p = p → pin_by_port pins p (num pin) = Ok pin) ∧
  (Py.upper p ∉ ports (mcu pins) →
   ∀ n, pin_by_port pins p n = Err KeyError).
Proof.
  intros Hinit Hcell.
  destruct (built_shape _ _ _ Hinit) as [Hdom Hrows].
  pose proof Hcell as (row & Hrow & Hpin)%bind_Some.
  pose proof (Hrows _ _ Hrow) as Hlen.
  assert (port pin = p
          ∧ - Z.of_nat (pins_per_port (mcu pins)) ≤ num pin
            < Z.of_nat (pins_per_port (mcu pins))
          ∧ index_of (pins_per_port (mcu pins)) (num pin) = i)
    as (Hport & Hrange & Hidx).
  { destruct (built_cell_origin _ _ _ _ _ _ Hinit Hcell)
      as [(default & _ & Hph & Hv)|(decl & Hin & Hdecl & Hp & Hi)].
    - destruct (placeholder_Ok _ _ _ _ Hv Hph) as (_ & ? & Hnum & _).
      apply lookup_lt_Some in Hpin. rewrite Hnum, index_of_nat.
      split_and!; try done; lia.
    - split; [done|]. split; [|done].
      apply Pins_init_Ok in Hinit
        as (default & raw0 & tbl0 & _ & _ & Hdef' & Htbl0 & Hrun).
      pose proof (declare_pins_range _ _ _ _ _ _ _
                    (default_table_rows _ _ _ Htbl0) Hrun) as Hall.
      rewrite Forall_forall in Hall.
      destruct (Hall _ Hin) as (pin' & Hpin' & Hr).
      unfold declared in Hdecl. rewrite Hdef' in Hdecl. simpl in Hdecl.
      by assert (pin' = pin) as -> by congruence. }
  split_and!; [done| |].
  - intros Hup. unfold pin_by_port. rewrite Hup, Hrow. simpl.
    rewrite list_getitem_index by (by rewrite Hlen).
    by rewrite Hlen, Hidx, Hpin.
  - intros Hup n. unfold pin_by_port.
    assert (_pins pins !! Py.upper p = None) as ->; [|done].
    apply not_elem_of_dom. rewrite Hdom.
    by rewrite (elem_of_list_to_set (C:=gset string)).
Qed.

Lemma stored_record_found_at_its_number_witness :
  (∃ pin,
     Pins_init catalog board = Ok built ∧
     cell (_pins built) "B" 5 = Some pin ∧
     port pin = "B" ∧ pin_by_port built "B" (num pin) = Ok pin) ∧
  (∃ pins pin,
     Pins_init lower_catalog board_without_pins = Ok pins ∧
     cell (_pins pins) "a" 0 = Some pin ∧
     port pin = "a" ∧ pin_by_port pins "a" 0 = Err KeyError).
Proof.
  split.
  - assert (E : Pins_init catalog board = Ok built) by (by vm_compute).
    destruct (cell (_pins built) "B" 5) as [pin|] eqn:Hcell;
      [|by vm_compute in Hcell].
    destruct (stored_record_found_at_its_number catalog board built "B"
                5%nat pin E Hcell) as (Hport & Hfind & _).
    exists pin. split; [exact E|]. split; [reflexivity|].
    split; [exact Hport|exact (Hfind eq_refl)].
  - destruct (Pins_init lower_catalog board_without_pins) as [pins|e] eqn:E;
      [|by vm_compute in E].
    destruct (cell (_pins pins) "a" 0) as [pin|] eqn:Hcell.
    + destruct (stored_record_found_at_its_number lower_catalog
                  board_without_pins pins "a" 0%nat pin E Hcell)
        as (Hport & _ & Hkey).
      exists pins, pin. split; [reflexivity|]. split; [exact Hcell|].
      split; [exact Hport|]. apply Hkey.
      vm_compute in E. injection E as <-.
      apply (bool_decide_unpack _). by vm_compute.
    + vm_compute in E. injection E as <-. by vm_compute in Hcell.
Defined.

Lemma default_table_total mcu s default raw ps acc :
  _parse_data_str mcu s true = Ok (default, raw) →
  is_ok (default_table mcu default ps acc) = true.
Proof.
  intros Hdef. revert acc. induction ps as [|p ps IH]; intros acc; [done|].
  cbn [default_table].
  pose proof (default_row_total _ _ _ _ p (seq 0 (pins_per_port mcu)) Hdef)
    as [row ->]%is_ok_true.
  apply IH.
Qed.

Lemma declare_pins_total mcu s0 default raw0 decls tbl bn :
  _parse_data_str mcu s0 true = Ok (default, raw0) →
  dom tbl = list_to_set (ports mcu) →
  rows_of_length (pins_per_port mcu) tbl →
  Forall (λ decl, ∃ pin,
            _parse_pin_data mcu decl.1 decl.2 default = Ok pin
            ∧ - Z.of_nat (pins_per_port mcu) ≤ num pin) decls →
  is_ok (declare_pins mcu default decls (tbl, bn)) = true.
Proof.
  intros Hdef Hdom Hrows Hall. revert tbl bn Hdom Hrows.
  induction Hall as [|d decls (pin & Hpin & Hlow) _ IH]; intros tbl bn Hdom Hrows;
    [done|].
  cbn [declare_pins].
  destruct (parse_pin_data_position _ _ _ _ _ _ _ Hdef Hpin) as [Hport Hhigh].
  assert (is_Some (tbl !! port pin)) as [row Hrow].
  { apply elem_of_dom. rewrite Hdom. by apply elem_of_list_to_set. }
  assert (is_ok (list_setitem row (num pin) pin) = true)
    as [row' Hset]%is_ok_true.
  { apply list_setitem_is_ok. rewrite (Hrows _ _ Hrow). lia. }
  assert (declare_pin mcu default (tbl, bn) d
          = Ok (<[port pin := row']> tbl, <[name pin := pin]> bn)) as Hstep.
  { unfold declare_pin. rewrite Hpin. simpl. rewrite Hrow. simpl.
    by rewrite Hset. }
  rewrite Hstep. simpl.
  destruct (declare_pin_cell _ _ _ _ _ _ _ _ Hrows Hstep Hpin)
    as (Hrows1 & Hdom1 & _).
  apply IH; [congruence|done].
Qed.

(** X12. The table is built exactly when a profile is found, the default
    passes its check, and every declaration gives a record whose number is
    not below [-pins_per_port]. *)
Theorem build_succeeds_iff dir bd :
  is_ok (Pins_init dir bd) = true ↔
  ∃ m default raw0,
    MCU_init dir (bd_mcutype bd) = Ok m ∧
    _parse_data_str m (bd_default bd) true = Ok (default, raw0) ∧
    Forall (λ decl, ∃ pin,
              _parse_pin_data m decl.1 decl.2 default = Ok pin
              ∧ - Z.of_nat (pins_per_port m) ≤ num pin) (bd_pins bd).
Proof.
  split.
  - intros [pins Hinit]%is_ok_true.
    apply Pins_init_Ok in Hinit
      as (default & raw0 & tbl0 & Hm & Hdef & _ & Htbl0 & Hrun).
    exists (mcu pins), default, raw0. split_and!; try done.
    eapply Forall_impl;
      [exact (declare_pins_range _ _ _ _ _ _ _
                (default_table_rows _ _ _ Htbl0) Hrun)|].
    simpl. intros decl (pin & ? & ? & _). eauto.
  - intros (m & default & raw0 & Hm & Hdef & Hall).
    unfold Pins_init. rewrite Hm. simpl. rewrite Hdef. simpl.
    pose proof (default_table_total _ _ _ _ (ports m) ∅ Hdef)
      as [tbl0 Htbl0]%is_ok_true.
    rewrite Htbl0. simpl.
    pose proof (declare_pins_total _ _ _ _ _ tbl0 ∅ Hdef
                  (default_table_dom _ _ _ Htbl0)
                  (default_table_rows _ _ _ Htbl0) Hall)
      as [[tbl bn] Hrun]%is_ok_true.
    by rewrite Hrun.
Qed.

(** ** Further properties of the emitter *)

(** X13. The ports are enumerated by rising name, each port of the
    profile once. *)
Theorem ports_enumerated_in_order dir bd pins :
  Pins_init dir bd = Ok pins →
  StronglySorted String.le (iter_ports pins) ∧ NoDup (iter_ports pins) ∧
  ∀ p, p ∈ iter_ports pins ↔ p ∈ ports (mcu pins).
Proof.
  intros [Hdom _]%built_shape. unfold iter_ports, sorted.
  assert (merge_sort String.le (elements (dom (_pins pins)))
          ≡ₚ elements (dom (_pins pins))) as Hperm
    by apply merge_sort_Permutation.
  split_and!.
  - apply StronglySorted_merge_sort; apply _.
  - rewrite Hperm. apply NoDup_elements.
  - intros p. by rewrite Hperm, elem_of_elements, Hdom, elem_of_list_to_set.
Qed.

Lemma ports_enumerated_in_order_witness :
  Pins_init catalog board = Ok built ∧
  StronglySorted String.le (iter_ports built) ∧
  ("B" ∈ iter_ports built ↔ "B" ∈ ports (mcu built)).
Proof.
  assert (E : Pins_init catalog board = Ok built) by (by vm_compute).
  destruct (ports_enumerated_in_order catalog board built E)
    as (Hs & _ & Hp).
  split; [exact E|]. split; [exact Hs|exact (Hp "B")].
Defined.

Lemma build_succeeds_iff_witness :
  (∃ m default raw0,
     MCU_init catalog (bd_mcutype board) = Ok m ∧
     _parse_data_str m (bd_default board) true = Ok (default, raw0) ∧
     Forall (λ decl, ∃ pin,
               _parse_pin_data m decl.1 decl.2 default = Ok pin
               ∧ - Z.of_nat (pins_per_port m) ≤ num pin) (bd_pins board)) ∧
  is_ok (Pins_init catalog board) = true.
Proof.
  assert (H : is_ok (Pins_init catalog board) = true) by (by vm_compute).
  split; [|exact H].
  exact (proj1 (build_succeeds_iff catalog board) H).
Defined.

Lemma for_each_is_ok {A B} (f : A → result B) (xs : list A) :
  is_ok (for_each f xs) = true ↔ Forall (λ x, is_ok (f x) = true) xs.
Proof.
  split; [|apply for_each_total].
  induction xs as [|x xs IH]; [constructor|]. cbn [for_each].
  destruct (f x) as [y|] eqn:Hx; simpl; [|done].
  destruct (for_each f xs); simpl; [|done].
  intros _. constructor; [by rewrite Hx|by apply IH].
Qed.

Lemma for_each_Err {A B} (f : A → result B) (xs : list A) e :
  for_each f xs = Err e → ∃ x, x ∈ xs ∧ f x = Err e.
Proof.
  induction xs as [|x xs IH]; [done|]. cbn [for_each].
  destruct (f x) as [y|e'] eqn:Hx; simpl.
  - destruct (for_each f xs) as [ys|e'']; simpl; [done|].
    intros [= ->]. destruct (IH eq_refl) as (x' & ? & ?).
    exists x'. split; [apply elem_of_cons; auto|done].
  - intros [= ->]. exists x. split; [apply elem_of_cons; auto|done].
Qed.

Lemma for_each_Ok {A B} (f : A → result B) (xs : list A) ys :
  for_each f xs = Ok ys → Forall2 (λ x y, f x = Ok y) xs ys.
Proof.
  revert ys. induction xs as [|x xs IH]; intros ys; cbn [for_each].
  - intros [= <-]. constructor.
  - intros (y & Hy & H)%bind_Ok. apply bind_Ok in H as (ys' & Hys & [= <-]).
    constructor; [done|by apply IH].
Qed.

Lemma write_io_port_is_ok pins p :
  is_ok (write_io_port pins p) = is_ok (iter_port pins p).
Proof.
  unfold write_io_port. destruct (iter_port pins p) as [row|]; [|done].
  cbn [mbind result_bind].
  assert (is_ok (for_each (λ reg, register_macro p reg row)
                          ["MODE"; "OTYPE"; "OSPEED"; "PUPD"; "OD"]) = true)
    as [regs ->]%is_ok_true; [|done].
  apply for_each_total, Forall_forall. intros reg Hreg.
  by apply register_macro_total.
Qed.

Lemma write_io_pins_port_is_ok pins p :
  is_ok (write_io_pins_port pins p) = is_ok (iter_port pins p).
Proof. unfold write_io_pins_port. by destruct (iter_port pins p). Qed.

Lemma iter_port_is_ok dir bd pins p :
  Pins_init dir bd = Ok pins →
  is_ok (iter_port pins p) = true ↔ Py.upper p ∈ ports (mcu pins).
Proof.
  intros [Hdom _]%built_shape. unfold iter_port.
  rewrite <-(elem_of_list_to_set (C:=gset string)), <-Hdom, elem_of_dom.
  destruct (_pins pins !! Py.upper p); simpl; split; try done; eauto.
Qed.

(** X14. The pin macros and the port macros are written in full exactly
    when the upper-case form of every port of the profile is a port of the
    profile; otherwise the emitter stops with a [KeyError]. *)
Theorem emitter_needs_upper_case_ports dir bd pins :
  Pins_init dir bd = Ok pins →
  (is_ok (write_io_pins pins) = true
   ↔ ∀ p, p ∈ ports (mcu pins) → Py.upper p ∈ ports (mcu pins)) ∧
  (is_ok (write_io_ports pins) = true
   ↔ ∀ p, p ∈ ports (mcu pins) → Py.upper p ∈ ports (mcu pins)) ∧
  (∀ e, write_io_pins pins = Err e → e = KeyError) ∧
  (∀ e, write_io_ports pins = Err e → e = KeyError).
Proof.
  intros Hinit.
  pose proof (built_shape _ _ _ Hinit) as [Hdom _].
  assert (∀ p, p ∈ iter_ports pins ↔ p ∈ ports (mcu pins)) as Hports.
  { intros p. unfold iter_ports, sorted.
    by rewrite merge_sort_Permutation, elem_of_elements, Hdom,
      elem_of_list_to_set. }
  assert (∀ f : string → result (list string),
            (∀ p, is_ok (f p) = is_ok (iter_port pins p)) →
            is_ok (for_each f (iter_ports pins)) = true
            ↔ ∀ p, p ∈ ports (mcu pins) → Py.upper p ∈ ports (mcu pins))
    as Hall.
  { intros f Hf. rewrite for_each_is_ok, Forall_forall.
    split; intros H p Hp.
    - apply (iter_port_is_ok _ _ _ _ Hinit). rewrite <-Hf.
      apply H. by apply Hports.
    - rewrite Hf. apply (iter_port_is_ok _ _ _ _ Hinit).
      apply H. by apply Hports. }
  assert (∀ p e, iter_port pins p = Err e → e = KeyError) as Hkey.
  { intros p e. unfold iter_port.
    destruct (_pins pins !! Py.upper p); simpl; congruence. }
  split_and!.
  - rewrite <-(Hall _ (write_io_pins_port_is_ok pins)).
    unfold write_io_pins. by destruct (for_each _ _).
  - rewrite <-(Hall _ (write_io_port_is_ok pins)).
    unfold write_io_ports. by destruct (for_each _ _).
  - intros e. unfold write_io_pins.
    destruct (for_each _ _) as [chunks|e'] eqn:Hfe; simpl; [done|].
    intros [= ->]. apply for_each_Err in Hfe as (p & _ & Hp).
    unfold write_io_pins_port in Hp.
    destruct (iter_port pins p) eqn:Hrow; simpl in Hp; [done|].
    injection Hp as <-. by eapply Hkey.
  - intros e. unfold write_io_ports.
    destruct (for_each _ _) as [chunks|e'] eqn:Hfe; simpl; [done|].
    intros [= ->]. apply for_each_Err in Hfe as (p & _ & Hp).
    pose proof (write_io_port_is_ok pins p) as Hok. rewrite Hp in Hok.
    unfold write_io_port in Hp.
    destruct (iter_port pins p) eqn:Hrow; simpl in Hok; [done|].
    simpl in Hp. injection Hp as <-. by eapply Hkey.
Qed.

Lemma emitter_needs_upper_case_ports_witness :
  Pins_init catalog board = Ok built ∧
  (∀ p, p ∈ ports (mcu built) → Py.upper p ∈ ports (mcu built)) ∧
  is_ok (write_io_pins built) = true ∧ is_ok (write_io_ports built) = true.
Proof.
  assert (E : Pins_init catalog board = Ok built) by (by vm_compute).
  assert (H : ∀ p, p ∈ ports (mcu built) → Py.upper p ∈ ports (mcu built)).
  { intros p Hp. apply list_elem_of_In in Hp. apply list_elem_of_In.
    vm_compute in Hp. destruct Hp as [<-|[<-|[]]]; vm_compute; auto. }
  destruct (emitter_needs_upper_case_ports catalog board built E)
    as (Hpins & Hports & _).
  split; [exact E|]. split; [exact H|].
  split; [exact (proj2 Hpins H)|exact (proj2 Hports H)].
Defined.

(** A record of a built table carries the port of its row and valid
    attributes. *)
Lemma built_record dir bd pins p i pin :
  Pins_init dir bd = Ok pins →
  cell (_pins pins) p i = Some pin →
  port pin = p ∧ valid_attrs pin.
Proof.
  intros Hinit Hcell.
  destruct (built_cell_origin _ _ _ _ _ _ Hinit Hcell)
    as [(default & _ & Hph & Hv)|(decl & _ & Hdecl & Hp & _)].
  - by destruct (placeholder_Ok _ _ _ _ Hv Hph) as (_ & ? & _ & _ & ? & _).
  - split; [done|]. unfold declared, default_of in Hdecl.
    apply bind_Ok in Hdecl as (default & Hd & Hpin).
    apply bind_Ok in Hd as ([d kws] & Hparse & [= ->]).
    apply parse_data_str_valid in Hparse.
    by destruct (parse_pin_data_Ok _ _ _ _ _ Hparse Hpin).
Qed.

Lemma built_row_records dir bd pins p row :
  Pins_init dir bd = Ok pins →
  iter_port pins p = Ok row →
  Forall (λ pin, port pin = Py.upper p ∧ valid_attrs pin) row.
Proof.
  intros Hinit Hrow. unfold iter_port in Hrow.
  destruct (_pins pins !! Py.upper p) as [row'|] eqn:Hlook; simplify_eq/=.
  apply Forall_lookup. intros i pin Hpin.
  apply (built_record _ _ _ _ i _ Hinit). unfold cell. by rewrite Hlook.
Qed.

Ltac helper_term v :=
  exists v; split;
    [apply (bool_decide_unpack _); by vm_compute | simpl; reflexivity].

(** The term of one record in one register macro names a helper macro. *)
Lemma register_term_helper reg pin :
  reg ∈ ["MODE"; "OTYPE"; "OSPEED"; "PUPD"; "OD"] →
  valid_attrs pin →
  ∃ helper,
    helper ∈ helper_macros ∧
    register_term reg pin
    = Ok (helper +:+ "(GPIO" +:+ port pin +:+ "_" +:+ name pin +:+ ")").
Proof.
  intros Hreg (Hm & Ho & Ht & Hs & Hp & _).
  unfold register_term, register_field, modes, levels, otypes, speeds, pulls
    in *.
  set_unfold.
  destruct Hreg as [->|[->|[->|[->|[->|[]]]]]]; simpl.
  - destruct Hm as [->|[->|[->|[->|[]]]]];
      [helper_term "PIN_MODE_INPUT" | helper_term "PIN_MODE_OUTPUT"
      | helper_term "PIN_MODE_ANALOG" | helper_term "PIN_MODE_ALTERNATE"].
  - destruct Ht as [->|[->|[]]];
      [helper_term "PIN_OTYPE_PUSHPULL" | helper_term "PIN_OTYPE_OPENDRAIN"].
  - destruct Hs as [->|[->|[->|[->|[]]]]];
      [helper_term "PIN_OSPEED_VERYLOW" | helper_term "PIN_OSPEED_LOW"
      | helper_term "PIN_OSPEED_MEDIUM" | helper_term "PIN_OSPEED_HIGH"].
  - destruct Hp as [->|[->|[->|[]]]];
      [helper_term "PIN_PUPD_FLOATING" | helper_term "PIN_PUPD_PULLUP"
      | helper_term "PIN_PUPD_PULLDOWN"].
  - destruct Ho as [->|[->|[]]];
      [helper_term "PIN_OD_LOW" | helper_term "PIN_OD_HIGH"].
Qed.

(** X15. Each of the five register macros of a port of a built table has
    one term per record of the row, in the order of the row; every term
    applies a helper macro of [IO_PORT_SETUP] to the identifier
    [GPIO<port>_<name>] of the record, with the port of the macro. *)
Theorem register_terms_use_defined_helpers dir bd pins p row reg :
  Pins_init dir bd = Ok pins →
  iter_port pins p = Ok row →
  reg ∈ ["MODE"; "OTYPE"; "OSPEED"; "PUPD"; "OD"] →
  ∃ terms,
    register_macro p reg row
    = Ok (Py.ljust 39 ("#define VAL_GPIO" +:+ p +:+ "_" +:+ reg +:+ "R")
          +:+ "(" +:+ Py.join term_sep terms +:+ ")" +:+ Py.nl) ∧
    Forall2 (λ pin term,
               ∃ helper, helper ∈ helper_macros ∧
                 term = helper +:+ "(GPIO" +:+ Py.upper p +:+ "_"
                        +:+ name pin +:+ ")") row terms.
Proof.
  intros Hinit Hrow Hreg.
  pose proof (built_row_records _ _ _ _ _ Hinit Hrow) as Hrecs.
  unfold register_macro.
  assert (∃ terms,
            for_each (register_term reg) row = Ok terms ∧
            Forall2 (λ pin term,
               ∃ helper, helper ∈ helper_macros ∧
                 term = helper +:+ "(GPIO" +:+ Py.upper p +:+ "_"
                        +:+ name pin +:+ ")") row terms)
    as (terms & -> & Hterms); [|by exists terms].
  clear Hrow. induction Hrecs as [|pin row [Hport Hattrs] _ (terms & IH1 & IH2)].
  - exists []. split; [done|constructor].
  - destruct (register_term_helper reg pin Hreg Hattrs)
      as (helper & Hhelper & Hterm).
    exists ((helper +:+ "(GPIO" +:+ Py.upper p +:+ "_" +:+ name pin +:+ ")")
            :: terms).
    split.
    + cbn [for_each]. rewrite Hterm, Hport. simpl. by rewrite IH1.
    + constructor; [by exists helper|done].
Qed.

Lemma register_terms_use_defined_helpers_witness :
  ∃ row terms,
    Pins_init catalog board = Ok built ∧
    iter_port built "A" = Ok row ∧
    "PUPD" ∈ ["MODE"; "OTYPE"; "OSPEED"; "PUPD"; "OD"] ∧
    register_macro "A" "PUPD" row
    = Ok (Py.ljust 39 "#define VAL_GPIOA_PUPDR" +:+ "("
          +:+ Py.join term_sep terms +:+ ")" +:+ Py.nl) ∧
    length terms = length row.
Proof.
  assert (E : Pins_init catalog board = Ok built) by (by vm_compute).
  destruct (iter_port built "A") as [row|e] eqn:Hrow;
    [|by vm_compute in Hrow].
  assert (Hreg : "PUPD" ∈ ["MODE"; "OTYPE"; "OSPEED"; "PUPD"; "OD"])
    by (apply list_elem_of_In; simpl; auto).
  destruct (register_terms_use_defined_helpers catalog board built "A" row
              "PUPD" E Hrow Hreg) as (terms & Hmacro & Hterms).
  exists row, terms. split; [exact E|]. split; [reflexivity|].
  split; [exact Hreg|]. split; [exact Hmacro|].
  symmetry. exact (Forall2_length _ _ _ Hterms).
Defined.

Lemma write_io_pins_rows pins ps :
  Forall (λ p, is_Some (_pins pins !! Py.upper p)) ps →
  ∃ rows,
    for_each (write_io_pins_port pins) ps
    = Ok ((λ row, (pin_define <$> row) ++ [Py.nl]) <$> rows) ∧
    Forall2 (λ p row, _pins pins !! Py.upper p = Some row) ps rows.
Proof.
  induction 1 as [|p ps [row Hrow] _ (rows & Hrows & Hall)].
  - exists []. split; [done|constructor].
  - exists (row :: rows). split; [|by constructor].
    assert (write_io_pins_port pins p = Ok ((pin_define <$> row) ++ [Py.nl]))
      as Hp by (unfold write_io_pins_port, iter_port; by rewrite Hrow).
    cbn [for_each]. rewrite Hp. cbn [mbind result_bind]. by rewrite Hrows.
Qed.

(** X16. When every port of the profile is in upper case, the section of
    pin macros consists of the comment and then, port after port in the
    order of [iter_ports], one [#define] for each of the [pins_per_port]
    records of the row, closed by an empty line.  Each record carries the
    port of its row, and a record with a number that is not negative
    stands at that number in the row. *)
Theorem pin_section_covers_every_position dir bd pins :
  Pins_init dir bd = Ok pins →
  (∀ p, p ∈ ports (mcu pins) → Py.upper p ∈ ports (mcu pins)) →
  ∃ rows,
    write_io_pins pins
    = Ok (io_pins_comment
          :: concat ((λ row, (pin_define <$> row) ++ [Py.nl]) <$> rows)) ∧
    Forall2 (λ p row,
               _pins pins !! Py.upper p = Some row ∧
               length row = pins_per_port (mcu pins) ∧
               ∀ i pin, row !! i = Some pin →
                        port pin = Py.upper p ∧
                        (0 ≤ num pin → num pin = Z.of_nat i))
            (iter_ports pins) rows.
Proof.
  intros Hinit Hupper.
  destruct (built_shape _ _ _ Hinit) as [Hdom Hlen].
  assert (Forall (λ p, is_Some (_pins pins !! Py.upper p)) (iter_ports pins))
    as Hall.
  { apply Forall_forall. intros p Hp. apply elem_of_dom. rewrite Hdom.
    apply elem_of_list_to_set, Hupper.
    apply (elem_of_list_to_set (C:=gset string)). rewrite <-Hdom.
    apply elem_of_elements. unfold iter_ports, sorted in Hp.
    by rewrite merge_sort_Permutation in Hp. }
  destruct (write_io_pins_rows _ _ Hall) as (rows & Hrows & Hfound).
  exists rows. split.
  - unfold write_io_pins. by rewrite Hrows.
  - eapply Forall2_impl; [exact Hfound|]. intros p row Hrow. simpl in Hrow.
    split_and!; [done|by eapply Hlen|].
    intros i pin Hpin. split.
    + apply (built_record _ _ _ _ i _ Hinit). unfold cell. by rewrite Hrow.
    + by apply (built_row_indexed _ _ _ _ _ _ _ Hinit Hrow Hpin).
Qed.

Lemma pin_section_covers_every_position_witness :
  Pins_init catalog board = Ok built ∧
  (∀ p, p ∈ ports (mcu built) → Py.upper p ∈ ports (mcu built)) ∧
  ∃ rows,
    write_io_pins built
    = Ok (io_pins_comment
          :: concat ((λ row, (pin_define <$> row) ++ [Py.nl]) <$> rows)) ∧
    length rows = length (iter_ports built).
Proof.
  assert (E : Pins_init catalog board = Ok built) by (by vm_compute).
  assert (H : ∀ p, p ∈ ports (mcu built) → Py.upper p ∈ ports (mcu built)).
  { intros p Hp. apply list_elem_of_In in Hp. apply list_elem_of_In.
    vm_compute in Hp. destruct Hp as [<-|[<-|[]]]; vm_compute; auto. }
  destruct (pin_section_covers_every_position catalog board built E H)
    as (rows & Hout & Hrows).
  split; [exact E|]. split; [exact H|].
  exists rows. split; [exact Hout|].
  symmetry. exact (Forall2_length _ _ _ Hrows).
Defined.

(** ** The layout of the macro lines *)

Lemma string_app_assoc (a b c : string) : (a +:+ b) +:+ c = a +:+ (b +:+ c).
Proof.
  induction a as [|x a IH]; [done|].
  change (String x ((a +:+ b) +:+ c) = String x (a +:+ (b +:+ c))).
  by rewrite IH.
Qed.

Lemma string_app_length (a b : string) :
  String.length (a +:+ b) = (String.length a + String.length b)%nat.
Proof.
  induction a as [|x a IH]; [done|].
  change (S (String.length (a +:+ b))
          = S (String.length a + String.length b)).
  by rewrite IH.
Qed.

Lemma chars_app (a b : string) :
  Py.chars (a +:+ b) = Py.chars a ++ Py.chars b.
Proof.
  induction a as [|x a IH]; [done|].
  change (x :: Py.chars (a +:+ b) = x :: (Py.chars a ++ Py.chars b)).
  by rewrite IH.
Qed.

Lemma str_length (l : list ascii) : String.length (Py.str l) = length l.
Proof. induction l as [|c l IH]; simpl; [done|]. by rewrite IH. Qed.

Lemma spaces_length (n : Z) : String.length (Py.spaces n) = Z.to_nat n.
Proof. unfold Py.spaces. by rewrite str_length, length_replicate. Qed.

Lemma spaces_empty (n : Z) : n ≤ 0 → Py.spaces n = "".
Proof.
  intros Hn. unfold Py.spaces. by replace (Z.to_nat n) with 0%nat by lia.
Qed.

Lemma upto_app (s t : string) (n : nat) :
  String.length s = n → Py.upto n (s +:+ t) = s.
Proof.
  intros <-. unfold Py.upto.
  rewrite chars_app, <-length_chars, take_app_length. apply str_chars.
Qed.

Lemma from_app (s t : string) (n : nat) :
  String.length s = n → Py.from n (s +:+ t) = t.
Proof.
  intros <-. unfold Py.from.
  rewrite chars_app, <-length_chars, drop_app_length. apply str_chars.
Qed.

(** X17. With a port of one character and a name of at most 25
    characters, the number of a pin macro starts at column 40: the first 39
    characters of the line are the macro name padded with blanks.  For
    such a name [PAL_LINE] of the line macro starts at column 40 as well. *)
Theorem values_start_at_column_40 pin :
  String.length (port pin) = 1%nat →
  (String.length (name pin) ≤ 25)%nat →
  Py.upto 39 (pin_define pin)
  = Py.ljust 39 ("#define GPIO" +:+ port pin +:+ "_" +:+ name pin) ∧
  Py.from 39 (pin_define pin) = Py.of_int (num pin) +:+ "U" +:+ Py.nl ∧
  Py.upto 39 (line_macro pin) = Py.ljust 39 ("#define LINE_" +:+ name pin) ∧
  Py.from 39 (line_macro pin)
  = "PAL_LINE(GPIO" +:+ port pin +:+ ", " +:+ Py.of_int (num pin) +:+ "U)"
    +:+ Py.nl.
Proof.
  intros Hport Hname.
  set (x := "#define GPIO" +:+ port pin +:+ "_" +:+ name pin).
  set (y := "#define LINE_" +:+ name pin).
  set (k := 39 - 14 - Z.of_nat (String.length (name pin))).
  set (j := 39 - 13 - Z.of_nat (String.length (name pin))).
  assert (String.length x = (14 + String.length (name pin))%nat) as Hx.
  { unfold x. rewrite !string_app_length, Hport. simpl. lia. }
  assert (String.length y = (13 + String.length (name pin))%nat) as Hy.
  { unfold y. by rewrite string_app_length. }
  assert (pin_define pin
          = (x +:+ Py.spaces k) +:+ Py.of_int (num pin) +:+ "U" +:+ Py.nl)
    as Hd by (unfold pin_define, x, k; by rewrite !string_app_assoc).
  assert (line_macro pin
          = (y +:+ Py.spaces j) +:+ "PAL_LINE(GPIO" +:+ port pin +:+ ", "
            +:+ Py.of_int (num pin) +:+ "U)" +:+ Py.nl)
    as Hl by (unfold line_macro, y, j; by rewrite !string_app_assoc).
  assert (String.length (x +:+ Py.spaces k) = 39%nat) as Hxk
    by (rewrite string_app_length, spaces_length, Hx; unfold k; lia).
  assert (String.length (y +:+ Py.spaces j) = 39%nat) as Hyj
    by (rewrite string_app_length, spaces_length, Hy; unfold j; lia).
  rewrite Hd, Hl, !(upto_app _ _ 39), !(from_app _ _ 39) by done.
  unfold Py.ljust. rewrite Hx, Hy. unfold k, j.
  split_and!; try done; do 2 f_equal; lia.
Qed.

Lemma values_start_at_column_40_witness :
  ∃ pin,
    pin_by_name built "LED1" = Ok pin ∧
    String.length (port pin) = 1%nat ∧
    (String.length (name pin) ≤ 25)%nat ∧
    Py.from 39 (pin_define pin) = Py.of_int (num pin) +:+ "U" +:+ Py.nl.
Proof.
  destruct (pin_by_name built "LED1") as [pin|e] eqn:Hpin;
    [|by vm_compute in Hpin].
  assert (String.length (port pin) = 1%nat) as Hport
    by (vm_compute in Hpin; by injection Hpin as <-).
  assert (String.length (name pin) ≤ 25)%nat as Hname
    by (vm_compute in Hpin; injection Hpin as <-; vm_compute; lia).
  exists pin. split; [reflexivity|]. split; [exact Hport|].
  split; [exact Hname|].
  exact (proj1 (proj2 (values_start_at_column_40 pin Hport Hname))).
Defined.

(** X18. A name of 25 characters or more leaves no blank in a pin macro:
    the number follows the name at once.  A name of 26 characters or more
    does the same to a line macro, where [PAL_LINE] follows the name. *)
Theorem long_name_runs_into_the_value pin :
  (25 ≤ String.length (name pin))%nat →
  pin_define pin
  = "#define GPIO" +:+ port pin +:+ "_" +:+ name pin
    +:+ Py.of_int (num pin) +:+ "U" +:+ Py.nl ∧
  ((26 ≤ String.length (name pin))%nat →
   line_macro pin
   = "#define LINE_" +:+ name pin +:+ "PAL_LINE(GPIO" +:+ port pin +:+ ", "
     +:+ Py.of_int (num pin) +:+ "U)" +:+ Py.nl).
Proof.
  intros Hname. split.
  - unfold pin_define. by rewrite spaces_empty by lia.
  - intros Hname'. unfold line_macro. by rewrite spaces_empty by lia.
Qed.

Lemma long_name_runs_into_the_value_witness :
  ∃ pin,
    declared stm32f4 board ("status_led_of_the_main_board", "PA3") = Ok pin ∧
    (25 ≤ String.length (name pin))%nat ∧
    pin_define pin
    = "#define GPIO" +:+ port pin +:+ "_" +:+ name pin
      +:+ Py.of_int (num pin) +:+ "U" +:+ Py.nl.
Proof.
  destruct (declared stm32f4 board ("status_led_of_the_main_board", "PA3"))
    as [pin|e] eqn:Hpin; [|by vm_compute in Hpin].
  assert (25 ≤ String.length (name pin))%nat as Hname
    by (vm_compute in Hpin; injection Hpin as <-; vm_compute; lia).
  exists pin. split; [reflexivity|]. split; [exact Hname|].
  exact (proj1 (long_name_runs_into_the_value pin Hname)).
Defined.
